(** * Data layer of the HN Afterglow client (src/unnamed/part_002)

    Shallow embedding of the client-side data layer: the id-list resolver
    [fetchStoryIds], the entity fetchers [fetchJson] / [fetchItemById], the
    batch fetcher [fetchItemsByIds], feed pagination [fetchFeedPage], the
    bounded comment-tree builder [buildCommentTree], the timed session
    caches [readTimedCache] / [writeTimedCache], and the continuation of the
    post-detail effect of [PostView].

    Conventions.
    - JS numbers used as ids, timestamps and durations are [Z]; list
      indices and cursors (always non-negative in the source) are [nat].
    - An optional boolean field ([dead?: boolean]) is [option bool]; its JS
      truthiness is [truthy].
    - [fetchItemById(id, signal).catch(() => null)], as used inside the batch
      and tree fetchers, is an oracle [Upstream := Z -> option HNItem]:
      [None] stands for a null payload, a missing item or any caught error.
    - [Promise.all] keeps request order, so concurrent fan-out is modelled
      as a [map] over the ids in order. *)

From Stdlib Require Import ZArith List Bool Lia Ascii String Sorting.Sorted.
From stdpp Require Import base gmap strings list pretty.
Import ListNotations.
Open Scope Z_scope.

(** ** Constants *)

Definition MAX_FRONT_PAGE_STORIES : nat := 30.
Definition FETCH_CHUNK_SIZE : nat := 15.
Definition MAX_COMMENT_DEPTH : Z := 5.
Definition MAX_CHILDREN_PER_LEVEL : nat := 10.
Definition PAGE_SIZE : nat := 30.
Definition FEED_CACHE_TTL_MS : Z := 60000.
Definition USER_CACHE_TTL_MS : Z := 5 * 60000.
Definition POST_CACHE_TTL_MS : Z := 2 * 60000.

(** ** Data model *)

Inductive Section := Top | New | Past | Comments | Ask | Show | Jobs | Submit.

Inductive ItemType := Story | Comment | Job | Poll | Pollopt.

Definition ItemType_eqb (a b : ItemType) : bool :=
  match a, b with
  | Story, Story | Comment, Comment | Job, Job | Poll, Poll
  | Pollopt, Pollopt => true
  | _, _ => false
  end.

(** [type HNItem] *)
Record HNItem := mkHNItem {
  id : Z;
  type : option ItemType;
  by_ : option string;
  time : option Z;
  title : option string;
  text : option string;
  url : option string;
  score : option Z;
  descendants : option Z;
  parent : option Z;
  kids : option (list Z);
  dead : option bool;
  deleted : option bool
}.

#[local] Set Warnings "-register-all".

(** [type HNCommentNode = HNItem & { children: HNCommentNode[] }] *)
Inductive HNCommentNode := mkNode (node_item : HNItem) (children : list HNCommentNode).

Definition node_item (n : HNCommentNode) : HNItem :=
  match n with mkNode it _ => it end.
Definition node_children (n : HNCommentNode) : list HNCommentNode :=
  match n with mkNode _ ch => ch end.

(** JS truthiness of an optional boolean field. *)
Definition truthy (o : option bool) : bool :=
  match o with Some true => true | _ => false end.

(** [!!item.text]: present and not the empty string. *)
Definition text_truthy (o : option string) : bool :=
  match o with Some s => negb (String.eqb s EmptyString) | None => false end.

(** [typeof item.type === t] for a literal [t]. *)
Definition type_is (it : HNItem) (t : ItemType) : bool :=
  match type it with Some t' => ItemType_eqb t' t | None => false end.

(** [item.kids ?? []] *)
Definition kids_or_nil (it : HNItem) : list Z :=
  match kids it with Some l => l | None => [] end.

(** The oracle [id => fetchItemById(id, signal).catch(() => null)]. *)
Definition Upstream := Z -> option HNItem.

(** ** Batch fetch: [fetchItemsByIds] *)

(** The inner [for (const item of results)] loop of one chunk:
    skip null / deleted / dead, push, and break once [maxItems] is reached. *)
Fixpoint pushLive (results : list (option HNItem)) (items : list HNItem)
    (maxItems : nat) : list HNItem :=
  match results with
  | [] => items
  | None :: rest => pushLive rest items maxItems
  | Some item :: rest =>
      if truthy (deleted item) || truthy (dead item) then pushLive rest items maxItems
      else
        let items' := items ++ [item] in
        if Nat.eqb (List.length items') maxItems then items'
        else pushLive rest items' maxItems
  end.

(** The outer [for (startIndex = 0; startIndex < ids.length && items.length <
    maxItems; startIndex += FETCH_CHUNK_SIZE)] loop; [fuel] bounds the number
    of iterations (any [fuel] with [ids.length <= startIndex + 15 * fuel]
    runs the loop to completion). *)
Fixpoint fetchItemsByIds_loop (fuel : nat) (fetch : Upstream) (ids : list Z)
    (startIndex : nat) (items : list HNItem) (maxItems : nat) : list HNItem :=
  match fuel with
  | O => items
  | S fuel' =>
      if Nat.ltb startIndex (List.length ids) && Nat.ltb (List.length items) maxItems then
        let chunk := firstn FETCH_CHUNK_SIZE (skipn startIndex ids) in
        let results := map fetch chunk in
        fetchItemsByIds_loop fuel' fetch ids (startIndex + FETCH_CHUNK_SIZE)%nat
          (pushLive results items maxItems) maxItems
      else items
  end.

Definition fetchItemsByIds (fetch : Upstream) (ids : list Z) (maxItems : nat)
    : list HNItem :=
  fetchItemsByIds_loop (S (List.length ids)) fetch ids 0 [] maxItems.

(** ** Feed pagination *)

Definition shouldRenderInSection (item : HNItem) (section : Section) : bool :=
  if truthy (dead item) || truthy (deleted item) then false
  else match section with
       | Jobs => type_is item Job
       | Comments => type_is item Comment && text_truthy (text item)
       | _ => type_is item Story || type_is item Poll
       end.

(** The inner [for (const item of fetchedItems)] loop of [fetchFeedPage]. *)
Fixpoint pushQualifying (section : Section) (fetched : list HNItem)
    (pageItems : list HNItem) : list HNItem :=
  match fetched with
  | [] => pageItems
  | item :: rest =>
      if negb (shouldRenderInSection item section) then pushQualifying section rest pageItems
      else
        let pageItems' := pageItems ++ [item] in
        if Nat.eqb (List.length pageItems') PAGE_SIZE then pageItems'
        else pushQualifying section rest pageItems'
  end.

(** The [while (cursor < ids.length && pageItems.length < PAGE_SIZE)] loop. *)
Fixpoint fetchFeedPage_loop (fuel : nat) (fetch : Upstream) (ids : list Z)
    (section : Section) (cursor : nat) (pageItems : list HNItem)
    : list HNItem * nat :=
  match fuel with
  | O => (pageItems, cursor)
  | S fuel' =>
      if Nat.ltb cursor (List.length ids) && Nat.ltb (List.length pageItems) PAGE_SIZE then
        let chunk := firstn PAGE_SIZE (skipn cursor ids) in
        if Nat.eqb (List.length chunk) 0 then (pageItems, cursor)
        else
          let cursor' := (cursor + PAGE_SIZE)%nat in
          let fetchedItems := fetchItemsByIds fetch chunk (List.length chunk) in
          fetchFeedPage_loop fuel' fetch ids section cursor'
            (pushQualifying section fetchedItems pageItems)
      else (pageItems, cursor)
  end.

(** [fetchFeedPage(ids, section, startIndex)] returns
    [{ items, nextFetchIndex }], here the pair [(items, nextFetchIndex)]. *)
Definition fetchFeedPage (fetch : Upstream) (ids : list Z) (section : Section)
    (startIndex : nat) : list HNItem * nat :=
  fetchFeedPage_loop (S (List.length ids)) fetch ids section startIndex [].

(** The start index chosen by [loadFeed] for the first page:
    [section === "past" ? MAX_FRONT_PAGE_STORIES : 0]. *)
Definition loadFeed_startIndex (section : Section) : nat :=
  match section with Past => MAX_FRONT_PAGE_STORIES | _ => 0%nat end.

(** The first page requested by [loadFeed] from the resolved id list. *)
Definition loadFeed_firstPage (fetch : Upstream) (allIds : list Z)
    (section : Section) : list HNItem * nat :=
  fetchFeedPage fetch allIds section (loadFeed_startIndex section).

(** A chain of [fetchFeedPage] calls (the first page, then each "load more"),
    each call starting at the cursor returned by the previous one. Each call
    sees the upstream as it is at that time, hence one oracle per call. *)
Fixpoint fetchPageChain (fetches : list Upstream) (ids : list Z)
    (section : Section) (startIndex : nat) : list (list HNItem * nat) :=
  match fetches with
  | [] => []
  | fetch :: rest =>
      let page := fetchFeedPage fetch ids section startIndex in
      page :: fetchPageChain rest ids section (snd page)
  end.

(** ** Comment-tree builder *)

(** The [validComments] filter:
    [!!item && item.type === "comment" && !item.dead && !item.deleted]. *)
Definition isValidComment (item : HNItem) : bool :=
  type_is item Comment && negb (truthy (dead item)) && negb (truthy (deleted item)).

Fixpoint validComments (results : list (option HNItem)) : list HNItem :=
  match results with
  | [] => []
  | Some item :: rest =>
      if isValidComment item then item :: validComments rest else validComments rest
  | None :: rest => validComments rest
  end.

(** [buildCommentTree(ids, signal, depth)]. The recursion is the source's; the
    extra [fuel] argument only makes the descent on [depth] structural, and
    [buildCommentTree] starts it at [MAX_COMMENT_DEPTH - depth], which never
    runs out before the source's own [depth >= MAX_COMMENT_DEPTH] test fires
    (see [buildCommentTree_unfold] below). *)
Fixpoint buildCommentTree_aux (fuel : nat) (fetch : Upstream) (ids : list Z)
    (depth : Z) : list HNCommentNode :=
  match fuel with
  | O => []
  | S fuel' =>
      if (depth >=? MAX_COMMENT_DEPTH) || Nat.eqb (List.length ids) 0 then []
      else
        let limitedIds := firstn MAX_CHILDREN_PER_LEVEL ids in
        let results := map fetch limitedIds in
        map (fun item => mkNode item (buildCommentTree_aux fuel' fetch (kids_or_nil item) (depth + 1)))
          (validComments results)
  end.

Definition buildCommentTree (fetch : Upstream) (ids : list Z) (depth : Z)
    : list HNCommentNode :=
  buildCommentTree_aux (Z.to_nat (MAX_COMMENT_DEPTH - depth)) fetch ids depth.

(** The ids passed to [fetchItemById] by one [buildCommentTree] call, over
    the whole recursion (the request log of the same recursion). *)
Fixpoint commentTreeRequests_aux (fuel : nat) (fetch : Upstream) (ids : list Z)
    (depth : Z) : list Z :=
  match fuel with
  | O => []
  | S fuel' =>
      if (depth >=? MAX_COMMENT_DEPTH) || Nat.eqb (List.length ids) 0 then []
      else
        let limitedIds := firstn MAX_CHILDREN_PER_LEVEL ids in
        limitedIds ++
        List.concat (map (fun item => commentTreeRequests_aux fuel' fetch (kids_or_nil item) (depth + 1))
                       (validComments (map fetch limitedIds)))
  end.

Definition commentTreeRequests (fetch : Upstream) (ids : list Z) (depth : Z) : list Z :=
  commentTreeRequests_aux (Z.to_nat (MAX_COMMENT_DEPTH - depth)) fetch ids depth.

(** [P d n] holds at every node [n] of a forest whose roots sit at depth [d]. *)
Fixpoint node_all (P : Z -> HNCommentNode -> Prop) (d : Z) (n : HNCommentNode) : Prop :=
  match n with
  | mkNode _ ch =>
      P d n /\
      (fix go (l : list HNCommentNode) : Prop :=
         match l with [] => True | c :: l' => node_all P (d + 1) c /\ go l' end) ch
  end.

Definition forest_all (P : Z -> HNCommentNode -> Prop) (d : Z)
    (f : list HNCommentNode) : Prop :=
  Forall (node_all P d) f.

(** Number of levels of a node / forest. *)
Fixpoint node_height (n : HNCommentNode) : nat :=
  match n with
  | mkNode _ ch =>
      S ((fix go (l : list HNCommentNode) : nat :=
            match l with [] => 0%nat | c :: l' => Nat.max (node_height c) (go l') end) ch)
  end.

Definition forest_height (f : list HNCommentNode) : nat :=
  fold_right (fun n acc => Nat.max (node_height n) acc) 0%nat f.

(** ** Timed session caches *)

(** [type TimedValue<T> = { value: T; createdAt: number }] *)
Record TimedValue (T : Type) := mkTimed { value : T; createdAt : Z }.
Arguments mkTimed {T} _ _.
Arguments value {T} _.
Arguments createdAt {T} _.

(** [readTimedCache(cache, key, maxAgeMs)] with [Date.now()] passed as [now];
    the [Map] is threaded explicitly since a stale read deletes the entry. *)
Definition readTimedCache {K T : Type} `{Countable K}
    (cache : gmap K (TimedValue T)) (key : K) (maxAgeMs now : Z)
    : gmap K (TimedValue T) * option T :=
  match cache !! key with
  | None => (cache, None)
  | Some entry =>
      if now - createdAt entry >? maxAgeMs then (delete key cache, None)
      else (cache, Some (value entry))
  end.

(** [writeTimedCache(cache, key, value)] at time [now]. *)
Definition writeTimedCache {K T : Type} `{Countable K}
    (cache : gmap K (TimedValue T)) (key : K) (v : T) (now : Z)
    : gmap K (TimedValue T) :=
  <[key := mkTimed v now]> cache.

Global Instance Section_eq_dec : EqDecision Section.
Proof. solve_decision. Defined.

Definition Section_to_nat (s : Section) : nat :=
  match s with
  | Top => 0 | New => 1 | Past => 2 | Comments => 3 | Ask => 4 | Show => 5
  | Jobs => 6 | Submit => 7
  end.

Definition Section_of_nat (n : nat) : option Section :=
  match n with
  | 0 => Some Top | 1 => Some New | 2 => Some Past | 3 => Some Comments
  | 4 => Some Ask | 5 => Some Show | 6 => Some Jobs | 7 => Some Submit
  | _ => None
  end%nat.

Global Instance Section_countable : Countable Section.
Proof.
  refine (inj_countable' Section_to_nat (fun n => match Section_of_nat n with Some s => s | None => Top end) _).
  intros []; reflexivity.
Defined.

Record FeedSnapshot := mkFeedSnapshot {
  snap_ids : list Z; snap_items : list HNItem; snap_nextFetchIndex : nat }.
Record PostSnapshot := mkPostSnapshot {
  post_item : HNItem; post_comments : list HNCommentNode }.
Record HNUser := mkHNUser {
  user_id : string; created : Z; about : option string; karma : Z;
  submitted : option (list Z) }.

(** The three module-level maps [feedCache], [postCache], [userCache]. *)
Abbreviation FeedCache := (gmap Section (TimedValue FeedSnapshot)).
Abbreviation PostCache := (gmap Z (TimedValue PostSnapshot)).
Abbreviation UserCache := (gmap string (TimedValue HNUser)).

(** [String.prototype.toLowerCase] on ASCII handles. *)
Definition ascii_lower (c : ascii) : ascii :=
  let n := nat_of_ascii c in
  if (Nat.leb 65 n && Nat.leb n 90)%nat then ascii_of_nat (n + 32) else c.

Fixpoint toLowerCase (s : string) : string :=
  match s with
  | EmptyString => EmptyString
  | String c s' => String (ascii_lower c) (toLowerCase s')
  end.

(** [UserView]: [const cacheKey = userId.toLowerCase()]. *)
Definition userCacheKey (userId : string) : string := toLowerCase userId.

(** ** Network layer: [fetchJson], [fetchItemById], [fetchStoryIds] *)

(** A parsed JSON value. JSON numbers are modelled as integers. *)
Inductive json :=
  | JNull
  | JBool (b : bool)
  | JNum (n : Z)
  | JStr (s : string)
  | JArr (elems : list json)
  | JObj (fields : list (string * json)).

(** The endpoint a URL built from [API_BASE] designates:
    [/item/{id}.json], [/user/{id}.json], [/updates.json], [/{name}.json]. *)
Inductive Endpoint :=
  | ItemEP (itemId : Z)
  | UserEP (userId : string)
  | UpdatesEP
  | StoriesEP (name : string).

(** Transport-level failures: [fetch] itself rejects. *)
Inductive TransportFailure := Timeout | NetworkError | AbortError.

(** The outcome of [fetch(url, { signal })]: a rejection, or a response with
    [response.ok], [response.status] and a body that [response.json()]
    parses ([None]: the body is not valid JSON). *)
Inductive Response :=
  | Rejected (f : TransportFailure)
  | HttpResponse (ok : bool) (status : Z) (body : option json).

(** Errors thrown by the network layer. *)
Inductive FetchError :=
  | TransportErr (f : TransportFailure)     (** the rejection of [fetch] *)
  | StatusErr (status : Z)                  (** [new Error(`Request failed (${status})`)] *)
  | ParseErr                                (** [response.json()] rejects *)
  | TypeErr.                                (** a [TypeError] on a malformed value *)

Abbreviation Net := (Endpoint -> Response).

(** Throwing computations: [inl] is a thrown error, [inr] a returned value. *)
Abbreviation Result A := (sum FetchError A).

(** [fetchJson(url, signal)] *)
Definition fetchJson (net : Net) (ep : Endpoint) : Result json :=
  match net ep with
  | Rejected f => inl (TransportErr f)
  | HttpResponse ok status body =>
      if negb ok then inl (StatusErr status)
      else match body with Some j => inr j | None => inl ParseErr end
  end.

(** JS truthiness of a JSON value ([!item]). *)
Definition json_truthy (j : json) : bool :=
  match j with
  | JNull => false
  | JBool b => b
  | JNum n => negb (n =? 0)
  | JStr s => negb (String.eqb s EmptyString)
  | JArr _ | JObj _ => true
  end.

(** Property read [obj.key] on a parsed object ([JSON.parse] keeps the last
    of duplicate keys); [None] is [undefined]. *)
Definition json_get (j : json) (key : string) : option json :=
  match j with
  | JObj fields =>
      match List.find (fun kv => String.eqb (fst kv) key) (rev fields) with
      | Some kv => Some (snd kv)
      | None => None
      end
  | _ => None
  end.

(** [typeof v === "number"] *)
Definition is_number (v : option json) : bool :=
  match v with Some (JNum _) => true | _ => false end.

(** [fetchItemById(id, signal)]: the payload itself, or [null]. *)
Definition fetchItemById (net : Net) (itemId : Z) : Result (option json) :=
  match fetchJson net (ItemEP itemId) with
  | inl e => inl e
  | inr item =>
      if negb (json_truthy item) || negb (is_number (json_get item "id")) then inr None
      else inr (Some item)
  end.

(** [.catch(() => null)] as used by the batch and tree fetchers. *)
Definition catchNull {A : Type} (r : Result (option A)) : option A :=
  match r with inl _ => None | inr o => o end.

(** [.filter((id): id is number => typeof id === "number")] *)
Definition filterNumbers (l : list json) : list Z :=
  List.flat_map (fun j => match j with JNum n => [n] | _ => [] end) l.

(** [arr.filter(...)] on a value that may not be an array: only arrays have
    a [filter] method; on anything else the call throws a [TypeError]. *)
Definition filterNumbersOf (j : json) : Result (list Z) :=
  match j with JArr l => inr (filterNumbers l) | _ => inl TypeErr end.

(** The endpoint chosen by [fetchStoryIds] for the ranked categories. *)
Definition storiesEndpoint (section : Section) : string :=
  match section with
  | New => "newstories"
  | Ask => "askstories"
  | Show => "showstories"
  | Jobs => "jobstories"
  | _ => "topstories"
  end.

(** [fetchStoryIds(section, signal)]: the endpoints requested, in order, and
    the returned ids or the thrown error. *)
Definition fetchStoryIds (net : Net) (section : Section) : list Endpoint * Result (list Z) :=
  match section with
  | Submit => ([], inr [])
  | Comments =>
      ([UpdatesEP],
        match fetchJson net UpdatesEP with
        | inl e => inl e
        | inr updates =>
            match updates with
            | JNull => inl TypeErr          (** [null.items] *)
            | _ =>
                match json_get updates "items" with
                | None | Some JNull => inr []  (** [updates.items ?? []] *)
                | Some items => filterNumbersOf items
                end
            end
        end)
  | _ =>
      let ep := StoriesEP (storiesEndpoint section) in
      ([ep],
        match fetchJson net ep with
        | inl e => inl e
        | inr storyIds => filterNumbersOf storyIds
        end)
  end.

(** ** The post-detail effect of [PostView] *)

Inductive LoadState := Idle | Loading | Ready | Error.

(** The React state of one [PostView] instance. *)
Record PostViewState := mkPostViewState {
  pv_item : option HNItem;
  pv_comments : list HNCommentNode;
  pv_loadState : LoadState
}.

(** Initial state of a mounting [PostView]: [readTimedCache(postCache, postId,
    POST_CACHE_TTL_MS)] feeds the [useState] initialisers. *)
Definition PostView_mount (postCache : PostCache) (postId : Z) (now : Z)
    : PostCache * PostViewState :=
  let (cache', cachedPost) := readTimedCache postCache postId POST_CACHE_TTL_MS now in
  (cache',
   match cachedPost with
   | Some p => mkPostViewState (Some (post_item p)) (post_comments p) Ready
   | None => mkPostViewState None [] Loading
   end).

(** The fetch seen by an operation whose [AbortController] is in state
    [aborted]: once aborted, every [fetch] under that signal rejects with an
    [AbortError], which the tree builder's [.catch(() => null)] maps to [null]. *)
Definition signalledFetch (upstream : Upstream) (aborted : bool) : Upstream :=
  fun i => if aborted then None else upstream i.

(** The [.then(async (nextItem) => ...)] continuation of the [PostView] effect
    after [fetchItemById(postId)] returned [nextItem], with the signal in state
    [aborted] while the comment tree is being fetched: [setItem(nextItem)],
    [await buildCommentTree(nextItem.kids ?? [], signal)], [setComments],
    [setLoadState("ready")], [writeTimedCache(postCache, postId, ...)]. *)
Definition PostView_then (upstream : Upstream) (aborted : bool)
    (postCache : PostCache) (postId : Z) (nextItem : HNItem) (now : Z)
    : PostCache * PostViewState :=
  let nextComments := buildCommentTree (signalledFetch upstream aborted) (kids_or_nil nextItem) 0 in
  (writeTimedCache postCache postId (mkPostSnapshot nextItem nextComments) now,
   mkPostViewState (Some nextItem) nextComments Ready).

(** ** Routing helpers *)

(** The string literal of each [Section]. *)
Definition sectionName (section : Section) : string :=
  match section with
  | Top => "top" | New => "new" | Past => "past" | Comments => "comments"
  | Ask => "ask" | Show => "show" | Jobs => "jobs" | Submit => "submit"
  end.

(** [sectionPath(section)] *)
Definition sectionPath (section : Section) : string :=
  match section with
  | Top => "/"
  | _ => String.append "/?section=" (sectionName section)
  end.

(** [normalizeSection(value)]; [null] and [undefined] are both [None]. *)
Definition normalizeSection (value : option string) : Section :=
  match value with
  | None => Top
  | Some v =>
      if String.eqb v "new" then New
      else if String.eqb v "past" then Past
      else if String.eqb v "comments" then Comments
      else if String.eqb v "ask" then Ask
      else if String.eqb v "show" then Show
      else if String.eqb v "jobs" then Jobs
      else if String.eqb v "submit" then Submit
      else Top
  end.

(** [formatRelativeAge(unixTimeSeconds)] with [Date.now()] passed as
    [nowMs]; [${n}] of an integer is its decimal form ([pretty]). *)
Definition formatRelativeAge (nowMs : Z) (unixTimeSeconds : option Z) : string :=
  match unixTimeSeconds with
  | None => "unknown"
  | Some t =>
      if t =? 0 then "unknown"
      else
        let nowSeconds := nowMs / 1000 in
        let diff := Z.max 0 (nowSeconds - t) in
        if diff <? 60 then String.append (pretty diff) "s ago"
        else
          let mins := diff / 60 in
          if mins <? 60 then String.append (pretty mins) "m ago"
          else
            let hours := mins / 60 in
            if hours <? 24 then String.append (pretty hours) "h ago"
            else
              let days := hours / 24 in
              String.append (pretty days) "d ago"
  end.

(** [fetchUserById(id, signal)]: the payload itself, or [null]. *)
Definition is_string (v : option json) : bool :=
  match v with Some (JStr _) => true | _ => false end.

Definition fetchUserById (net : Net) (userId : string) : Result (option json) :=
  match fetchJson net (UserEP userId) with
  | inl e => inl e
  | inr user =>
      if negb (json_truthy user) || negb (is_string (json_get user "id")) then inr None
      else inr (Some user)
  end.

(** ** The feed view: [loadFeed] and [handleLoadMore] of [FeedView] *)

(** The React state of [FeedView]. The error message shown is the one of
    the thrown error; it is kept here as the error itself. *)
Record FeedViewState := mkFeedViewState {
  fv_ids : list Z;
  fv_items : list HNItem;
  fv_loadState : LoadState;
  fv_error : option FetchError;
  fv_nextFetchIndex : nat;
  fv_loadingMore : bool;
  fv_pendingScroll : option Z
}.

(** Where the operation's controller was aborted, if at all: while
    [fetchStoryIds] was pending, or while [fetchFeedPage] was pending. *)
Inductive AbortPoint := NotAborted | AbortedDuringIds | AbortedDuringPage.

(** [loadFeed(forceFresh)] run to completion on the state [st], the feed
    cache [cache] and time [now]; [fetch] is the item fetcher under the
    signal, [net] the network for the id list. Returns the cache, the state
    and the id-list endpoints requested. *)
Definition loadFeed (net : Net) (fetch : Upstream) (section : Section)
    (forceFresh : bool) (abortPoint : AbortPoint) (cache : FeedCache)
    (st : FeedViewState) (now : Z) : FeedCache * FeedViewState * list Endpoint :=
  let st0 := {| fv_ids := fv_ids st; fv_items := fv_items st;
                fv_loadState := fv_loadState st; fv_error := None;
                fv_nextFetchIndex := fv_nextFetchIndex st;
                fv_loadingMore := fv_loadingMore st;
                fv_pendingScroll := fv_pendingScroll st |} in
  match section with
  | Submit =>
      (cache, {| fv_ids := []; fv_items := []; fv_loadState := Ready; fv_error := None;
                 fv_nextFetchIndex := 0%nat; fv_loadingMore := fv_loadingMore st;
                 fv_pendingScroll := fv_pendingScroll st |}, [])
  | _ =>
      let (cache1, cachedSnapshot) :=
        if forceFresh then (cache, None)
        else readTimedCache cache section FEED_CACHE_TTL_MS now in
      match cachedSnapshot with
      | Some snap =>
          (cache1, {| fv_ids := snap_ids snap; fv_items := snap_items snap;
                      fv_loadState := Ready; fv_error := None;
                      fv_nextFetchIndex := snap_nextFetchIndex snap;
                      fv_loadingMore := fv_loadingMore st;
                      fv_pendingScroll := fv_pendingScroll st |}, [])
      | None =>
          let st1 := {| fv_ids := []; fv_items := []; fv_loadState := Loading;
                        fv_error := None; fv_nextFetchIndex := fv_nextFetchIndex st0;
                        fv_loadingMore := fv_loadingMore st;
                        fv_pendingScroll := fv_pendingScroll st |} in
          let (reqs, allIdsResult) := fetchStoryIds net section in
          match abortPoint with
          | AbortedDuringIds => (cache1, st1, reqs)
          | _ =>
              match allIdsResult with
              | inl e =>
                  (cache1, {| fv_ids := []; fv_items := []; fv_loadState := Error;
                              fv_error := Some e; fv_nextFetchIndex := fv_nextFetchIndex st0;
                              fv_loadingMore := fv_loadingMore st;
                              fv_pendingScroll := fv_pendingScroll st |}, reqs)
              | inr allIds =>
                  let firstPage := fetchFeedPage fetch allIds section (loadFeed_startIndex section) in
                  match abortPoint with
                  | AbortedDuringPage => (cache1, st1, reqs)
                  | _ =>
                      (writeTimedCache cache1 section
                         (mkFeedSnapshot allIds (fst firstPage) (snd firstPage)) now,
                       {| fv_ids := allIds; fv_items := fst firstPage; fv_loadState := Ready;
                          fv_error := None; fv_nextFetchIndex := snd firstPage;
                          fv_loadingMore := fv_loadingMore st;
                          fv_pendingScroll := fv_pendingScroll st |}, reqs)
                  end
              end
          end
      end
  end.

(** The merge loop of [handleLoadMore]: skip ids already [seen], remember the
    first new id, append the rest in order. *)
Fixpoint mergeLoop (seen : gset Z) (mergedItems : list HNItem)
    (firstNewItemId : option Z) (pageItems : list HNItem) : list HNItem * option Z :=
  match pageItems with
  | [] => (mergedItems, firstNewItemId)
  | item :: rest =>
      if bool_decide (id item ∈ seen) then mergeLoop seen mergedItems firstNewItemId rest
      else
        let firstNewItemId' :=
          match firstNewItemId with None => Some (id item) | Some f => Some f end in
        mergeLoop ({[id item]} ∪ seen) (mergedItems ++ [item]) firstNewItemId' rest
  end.

(** [const seen = new Set(items.map((item) => item.id))] and the loop. *)
Definition mergePage (items pageItems : list HNItem) : list HNItem * option Z :=
  mergeLoop (list_to_set (map id items)) items None pageItems.

(** [handleLoadMore()] run to completion; [aborted] tells whether its
    controller was aborted while [fetchFeedPage] was pending. Returns the
    cache, the state, and whether [fetchFeedPage] was called. *)
Definition handleLoadMore (fetch : Upstream) (section : Section) (aborted : bool)
    (cache : FeedCache) (st : FeedViewState) (now : Z) : FeedCache * FeedViewState * bool :=
  if fv_loadingMore st || Nat.eqb (List.length (fv_ids st)) 0
     || Nat.leb (List.length (fv_ids st)) (fv_nextFetchIndex st)
  then (cache, st, false)
  else
    let nextPage := fetchFeedPage fetch (fv_ids st) section (fv_nextFetchIndex st) in
    if aborted then
      (cache, {| fv_ids := fv_ids st; fv_items := fv_items st; fv_loadState := fv_loadState st;
                 fv_error := fv_error st; fv_nextFetchIndex := fv_nextFetchIndex st;
                 fv_loadingMore := false; fv_pendingScroll := fv_pendingScroll st |}, true)
    else
      let (mergedItems, firstNewItemId) := mergePage (fv_items st) (fst nextPage) in
      (writeTimedCache cache section
         (mkFeedSnapshot (fv_ids st) mergedItems (snd nextPage)) now,
       {| fv_ids := fv_ids st; fv_items := mergedItems; fv_loadState := fv_loadState st;
          fv_error := fv_error st; fv_nextFetchIndex := snd nextPage;
          fv_loadingMore := false; fv_pendingScroll := firstNewItemId |}, true).

(** ** Specification-side helpers *)

(** [item.deleted || item.dead] *)
Definition suppressed (item : HNItem) : bool :=
  truthy (deleted item) || truthy (dead item).

(** The non-null, non-suppressed results, in order. *)
Definition liveItems (results : list (option HNItem)) : list HNItem :=
  List.flat_map (fun o => match o with
                          | Some it => if suppressed it then [] else [it]
                          | None => []
                          end) results.

(** The items of a window of ids that qualify for a feed category. *)
Definition pageCandidates (fetch : Upstream) (section : Section) (window : list Z)
    : list HNItem :=
  List.filter (fun it => shouldRenderInSection it section) (liveItems (map fetch window)).

(** The ids [ids[from .. to)] as [ids.slice(from, to)] gives them. *)
Definition window (ids : list Z) (from to : nat) : list Z :=
  firstn (to - from) (skipn from ids).

(** An upstream that answers each id with the item of that id. *)
Definition consistentUpstream (fetch : Upstream) : Prop :=
  forall i it, fetch i = Some it -> id it = i.

(** A story with the given id and no other field set. *)
Definition storyItem (i : Z) : HNItem :=
  mkHNItem i (Some Story) None None None None None None None None None None None.

(** An upstream in which every id is a live story. *)
Definition storyUpstream : Upstream := fun i => Some (storyItem i).

(** [10 + 10^2 + ... + 10^n]: the most ids a tree build with [n] levels left
    can request, [MAX_CHILDREN_PER_LEVEL] per expanded node. *)
Fixpoint reqBound (n : nat) : nat :=
  match n with O => O | S n' => MAX_CHILDREN_PER_LEVEL + MAX_CHILDREN_PER_LEVEL * reqBound n' end.

(** A thread for the cancellation scenario: post 7 whose only reply is the
    live comment 8. *)
Definition post7 : HNItem :=
  mkHNItem 7 (Some Story) None None (Some "post"%string) None None None None None
    (Some [8]) None None.
Definition comment8 : HNItem :=
  mkHNItem 8 (Some Comment) None None None (Some "reply"%string) None None None (Some 7)
    None None None.
Definition threadUpstream : Upstream :=
  fun i => if i =? 7 then Some post7 else if i =? 8 then Some comment8 else None.

(** Example inputs for the witnesses. *)
Definition feedView_example : FeedViewState :=
  {| fv_ids := [1; 2]; fv_items := []; fv_loadState := Ready; fv_error := None;
     fv_nextFetchIndex := 0%nat; fv_loadingMore := false; fv_pendingScroll := None |}.


(** Every endpoint answers 200 with the list [[5]]. *)
Definition netStories : Net := fun _ => HttpResponse true 200 (Some (JArr [JNum 5])).

(** * Proofs *)

(** ** Batch fetch *)

Lemma liveItems_app (a b : list (option HNItem)) :
  liveItems (a ++ b) = liveItems a ++ liveItems b.
Proof. unfold liveItems. apply flat_map_app. Qed.

Lemma length_liveItems (l : list (option HNItem)) :
  (List.length (liveItems l) <= List.length l)%nat.
Proof.
  induction l as [|[it|] l IH]; simpl; [lia| |lia].
  destruct (suppressed it); simpl; lia.
Qed.

Lemma take_short {A : Type} (n : nat) (l : list A) :
  (List.length (take n l) < n)%nat -> take n l = l.
Proof. rewrite length_take. intros H. apply take_ge. lia. Qed.

Lemma pushLive_spec (results : list (option HNItem)) :
  forall (items : list HNItem) (m : nat), (List.length items < m)%nat ->
  pushLive results items m = items ++ take (m - List.length items) (liveItems results).
Proof.
  induction results as [|[it|] rest IH]; intros items m Hlt; simpl.
  - rewrite take_nil, app_nil_r. reflexivity.
  - unfold suppressed. destruct (truthy (deleted it) || truthy (dead it)) eqn:Hs; simpl.
    + apply IH; assumption.
    + rewrite length_app. simpl.
      destruct (Nat.eqb (List.length items + 1) m) eqn:Heq.
      * apply Nat.eqb_eq in Heq.
        replace (m - List.length items)%nat with (S 0) by lia. simpl. reflexivity.
      * apply Nat.eqb_neq in Heq.
        rewrite IH by (rewrite length_app; simpl; lia).
        rewrite length_app, <- app_assoc. simpl.
        replace (m - List.length items)%nat with (S (m - (List.length items + 1))) by lia.
        reflexivity.
  - apply IH; assumption.
Qed.

Lemma fetchItemsByIds_loop_spec (fetch : Upstream) (ids : list Z) (m : nat) :
  forall fuel start items,
  (List.length ids <= start + FETCH_CHUNK_SIZE * fuel)%nat ->
  items = take m (liveItems (map fetch (take start ids))) ->
  fetchItemsByIds_loop fuel fetch ids start items m = take m (liveItems (map fetch ids)).
Proof.
  induction fuel as [|fuel IH]; intros start items Hfuel Hitems; simpl.
  - rewrite (take_ge ids start) in Hitems by (unfold FETCH_CHUNK_SIZE in Hfuel; lia). exact Hitems.
  - destruct (Nat.ltb start (List.length ids)) eqn:H1;
    destruct (Nat.ltb (List.length items) m) eqn:H2; simpl.
    + apply Nat.ltb_lt in H1. apply Nat.ltb_lt in H2.
      apply IH; [unfold FETCH_CHUNK_SIZE in *; lia|].
      rewrite pushLive_spec by exact H2.
      assert (Hshort : items = liveItems (map fetch (take start ids))).
      { rewrite Hitems. apply take_short. rewrite <- Hitems. exact H2. }
      rewrite <- take_take_drop, map_app, liveItems_app, take_app.
      rewrite <- Hshort, (take_ge items m) by lia. reflexivity.
    + apply Nat.ltb_lt in H1. apply Nat.ltb_ge in H2.
      rewrite Hitems in H2 |- *. rewrite length_take in H2.
      rewrite <- (take_drop start ids) at 2.
      rewrite map_app, liveItems_app, take_app_le by lia. reflexivity.
    + apply Nat.ltb_ge in H1. rewrite (take_ge ids start) in Hitems by lia. exact Hitems.
    + apply Nat.ltb_ge in H1. rewrite (take_ge ids start) in Hitems by lia. exact Hitems.
Qed.

(** [fetchItemsByIds(ids, signal, maxItems)] returns the first [maxItems]
    live items of [ids], in order. *)
Lemma fetchItemsByIds_spec (fetch : Upstream) (ids : list Z) (m : nat) :
  fetchItemsByIds fetch ids m = take m (liveItems (map fetch ids)).
Proof.
  unfold fetchItemsByIds. apply fetchItemsByIds_loop_spec.
  - unfold FETCH_CHUNK_SIZE. lia.
  - simpl. rewrite take_nil. reflexivity.
Qed.

Lemma liveItems_not_suppressed (l : list (option HNItem)) :
  Forall (fun it => suppressed it = false) (liveItems l).
Proof.
  induction l as [|[it|] l IH]; simpl; [constructor| |exact IH].
  destruct (suppressed it) eqn:Hs; simpl; [exact IH|constructor; assumption].
Qed.

(** ** Feed pagination *)

Lemma pushQualifying_spec (section : Section) (fetched : list HNItem) :
  forall page, (List.length page < PAGE_SIZE)%nat ->
  pushQualifying section fetched page =
    page ++ take (PAGE_SIZE - List.length page)
                 (List.filter (fun it => shouldRenderInSection it section) fetched).
Proof.
  induction fetched as [|it rest IH]; intros page Hlt; simpl.
  - rewrite take_nil, app_nil_r. reflexivity.
  - destruct (shouldRenderInSection it section) eqn:Hq; simpl.
    + rewrite length_app. simpl.
      destruct (Nat.eqb (List.length page + 1) PAGE_SIZE) eqn:Heq.
      * apply Nat.eqb_eq in Heq.
        replace (PAGE_SIZE - List.length page)%nat with (S 0) by lia. reflexivity.
      * apply Nat.eqb_neq in Heq.
        rewrite IH by (rewrite length_app; simpl; lia).
        rewrite length_app, <- app_assoc. simpl.
        replace (PAGE_SIZE - List.length page)%nat
          with (S (PAGE_SIZE - (List.length page + 1))) by lia.
        reflexivity.
    + apply IH; assumption.
Qed.

Lemma shouldRender_not_suppressed (item : HNItem) (section : Section) :
  shouldRenderInSection item section = true -> suppressed item = false.
Proof.
  unfold shouldRenderInSection, suppressed.
  destruct (truthy (dead item)), (truthy (deleted item)); simpl; congruence.
Qed.

Lemma filter_render_liveItems (section : Section) (l : list (option HNItem)) :
  List.filter (fun it => shouldRenderInSection it section) (liveItems l) =
  List.filter (fun it => shouldRenderInSection it section)
    (List.flat_map (fun o => match o with Some it => [it] | None => [] end) l).
Proof.
  induction l as [|[it|] l IH]; simpl; [reflexivity| |exact IH].
  destruct (suppressed it) eqn:Hs; simpl.
  - destruct (shouldRenderInSection it section) eqn:Hq.
    + apply shouldRender_not_suppressed in Hq. congruence.
    + exact IH.
  - rewrite IH. reflexivity.
Qed.

Lemma pageCandidates_app (fetch : Upstream) (section : Section) (a b : list Z) :
  pageCandidates fetch section (a ++ b) =
  pageCandidates fetch section a ++ pageCandidates fetch section b.
Proof.
  unfold pageCandidates. rewrite map_app, liveItems_app. apply List.filter_app.
Qed.

(** One chunk of the page loop: the items it contributes. *)
Lemma chunk_candidates (fetch : Upstream) (section : Section) (chunk : list Z) :
  List.filter (fun it => shouldRenderInSection it section)
    (fetchItemsByIds fetch chunk (List.length chunk)) =
  pageCandidates fetch section chunk.
Proof.
  rewrite fetchItemsByIds_spec, take_ge; [reflexivity|].
  pose proof (length_liveItems (map fetch chunk)) as H.
  rewrite length_map in H. exact H.
Qed.

Lemma window_extend (ids : list Z) (start cursor k : nat) :
  (start <= cursor)%nat ->
  window ids start (cursor + k) = window ids start cursor ++ take k (drop cursor ids).
Proof.
  intros Hle. unfold window.
  replace (cursor + k - start)%nat with ((cursor - start) + k)%nat by lia.
  rewrite <- take_take_drop, drop_drop.
  replace (start + (cursor - start))%nat with cursor by lia. reflexivity.
Qed.

Lemma window_all (ids : list Z) (start cursor : nat) :
  (List.length ids <= cursor)%nat -> window ids start cursor = drop start ids.
Proof.
  intros H. unfold window. apply take_ge. rewrite length_drop. lia.
Qed.

(** The state reached by the page loop, started at [startIndex]. *)
Definition pageLoopInv (fetch : Upstream) (ids : list Z) (section : Section)
    (startIndex : nat) (page : list HNItem) (cursor : nat) : Prop :=
  (startIndex <= cursor)%nat /\
  page = take PAGE_SIZE (pageCandidates fetch section (window ids startIndex cursor)) /\
  ((startIndex < cursor)%nat ->
     (startIndex + PAGE_SIZE <= cursor)%nat /\
     (List.length (pageCandidates fetch section
        (window ids startIndex (cursor - PAGE_SIZE))) < PAGE_SIZE)%nat).

Lemma fetchFeedPage_loop_spec (fetch : Upstream) (ids : list Z) (section : Section)
    (startIndex : nat) :
  forall fuel cursor page,
  (List.length ids <= cursor + PAGE_SIZE * fuel)%nat ->
  pageLoopInv fetch ids section startIndex page cursor ->
  let r := fetchFeedPage_loop fuel fetch ids section cursor page in
  pageLoopInv fetch ids section startIndex (fst r) (snd r) /\
  ((List.length (fst r) < PAGE_SIZE)%nat -> (List.length ids <= snd r)%nat).
Proof.
  induction fuel as [|fuel IH]; intros cursor page Hfuel Hinv; simpl.
  - split; [exact Hinv|]. intros _. unfold PAGE_SIZE in Hfuel. lia.
  - destruct (Nat.ltb cursor (List.length ids)) eqn:H1;
    destruct (Nat.ltb (List.length page) PAGE_SIZE) eqn:H2; simpl.
    + apply Nat.ltb_lt in H1. apply Nat.ltb_lt in H2.
      assert (Hchunk : List.length (take PAGE_SIZE (drop cursor ids)) <> 0%nat).
      { rewrite length_take, length_drop. unfold PAGE_SIZE. lia. }
      apply Nat.eqb_neq in Hchunk. rewrite Hchunk.
      destruct Hinv as (Hle & Hpage & Hmin).
      assert (Hshort : page = pageCandidates fetch section (window ids startIndex cursor)).
      { rewrite Hpage. apply take_short. rewrite <- Hpage. exact H2. }
      apply IH; [unfold PAGE_SIZE in *; lia|].
      split; [lia|]. split.
      * rewrite pushQualifying_spec by exact H2.
        rewrite chunk_candidates, window_extend by exact Hle.
        rewrite pageCandidates_app, take_app, <- Hshort.
        rewrite (take_ge page PAGE_SIZE) by lia. reflexivity.
      * intros _. split; [lia|].
        replace (cursor + PAGE_SIZE - PAGE_SIZE)%nat with cursor by lia.
        rewrite <- Hshort. exact H2.
    + split; [exact Hinv|]. apply Nat.ltb_ge in H2. lia.
    + split; [exact Hinv|]. apply Nat.ltb_ge in H1. lia.
    + split; [exact Hinv|]. apply Nat.ltb_ge in H1. lia.
Qed.

Lemma fetchFeedPage_spec (fetch : Upstream) (ids : list Z) (section : Section)
    (startIndex : nat) :
  let r := fetchFeedPage fetch ids section startIndex in
  pageLoopInv fetch ids section startIndex (fst r) (snd r) /\
  ((List.length (fst r) < PAGE_SIZE)%nat -> (List.length ids <= snd r)%nat).
Proof.
  apply fetchFeedPage_loop_spec.
  - unfold PAGE_SIZE. lia.
  - split; [lia|]. split; [|lia].
    unfold window. rewrite Nat.sub_diag. reflexivity.
Qed.

Lemma Forall_filter_true {A : Type} (f : A -> bool) (l : list A) :
  Forall (fun x => f x = true) (List.filter f l).
Proof.
  induction l as [|x l IH]; simpl; [constructor|].
  destruct (f x) eqn:Hx; [constructor|]; assumption.
Qed.

(** C8 (page assembly). A page holds at most [PAGE_SIZE] = 30 items, each of
    which qualifies for the category ([shouldRenderInSection]); the page is
    the first 30 qualifying items of the ids scanned, so non-qualifying and
    suppressed items do not count; the scan stops only when 30 qualifying
    items are collected or the id list is exhausted (and it took one chunk
    too few before that point, fewer than 30 qualified); and the first page
    of the [past] category starts at offset 30. *)
Theorem fetchFeedPage_page_assembly (fetch : Upstream) (ids : list Z)
    (section : Section) (startIndex : nat) :
  let '(items, nextFetchIndex) := fetchFeedPage fetch ids section startIndex in
  (List.length items <= PAGE_SIZE)%nat /\
  Forall (fun it => shouldRenderInSection it section = true) items /\
  items = take PAGE_SIZE (pageCandidates fetch section (window ids startIndex nextFetchIndex)) /\
  ((List.length items < PAGE_SIZE)%nat -> (List.length ids <= nextFetchIndex)%nat) /\
  ((startIndex < nextFetchIndex)%nat ->
     (List.length (pageCandidates fetch section
        (window ids startIndex (nextFetchIndex - PAGE_SIZE))) < PAGE_SIZE)%nat) /\
  loadFeed_firstPage fetch ids Past = fetchFeedPage fetch ids Past 30%nat.
Proof.
  pose proof (fetchFeedPage_spec fetch ids section startIndex) as Hspec.
  destruct (fetchFeedPage fetch ids section startIndex) as [items next]. simpl in Hspec.
  destruct Hspec as ((Hle & Hpage & Hmin) & Hexh).
  split; [rewrite Hpage, length_take; lia|].
  split; [rewrite Hpage; apply Forall_take; apply Forall_filter_true|].
  split; [exact Hpage|].
  split; [exact Hexh|].
  split; [intros Hlt; apply Hmin, Hlt|].
  reflexivity.
Qed.

(** ** Chained pagination *)

Lemma ids_of_liveItems_sublist (fetch : Upstream) (w : list Z) :
  consistentUpstream fetch ->
  map id (liveItems (map fetch w)) `sublist_of` w.
Proof.
  intros Hc. induction w as [|i w IH]; simpl; [constructor|].
  destruct (fetch i) as [it|] eqn:Hf; simpl.
  - destruct (suppressed it); simpl.
    + apply sublist_cons. exact IH.
    + rewrite (Hc i it Hf). apply sublist_skip. exact IH.
  - apply sublist_cons. exact IH.
Qed.

Lemma sublist_map_filter {A B : Type} (g : A -> B) (f : A -> bool) (l : list A) :
  map g (List.filter f l) `sublist_of` map g l.
Proof.
  induction l as [|x l IH]; simpl; [constructor|].
  destruct (f x); simpl; [apply sublist_skip | apply sublist_cons]; exact IH.
Qed.

Lemma sublist_map_take {A B : Type} (g : A -> B) (n : nat) (l : list A) :
  map g (take n l) `sublist_of` map g l.
Proof. rewrite <- firstn_map. apply sublist_take. Qed.

(** The ids of one page come from the ids it scanned, in order. *)
Lemma page_ids_sublist (fetch : Upstream) (ids : list Z) (section : Section)
    (startIndex : nat) :
  consistentUpstream fetch ->
  let r := fetchFeedPage fetch ids section startIndex in
  map id (fst r) `sublist_of` window ids startIndex (snd r).
Proof.
  intros Hc. pose proof (fetchFeedPage_spec fetch ids section startIndex) as Hspec.
  destruct (fetchFeedPage fetch ids section startIndex) as [items next]. simpl in *.
  destruct Hspec as ((_ & Hpage & _) & _). rewrite Hpage.
  etransitivity; [apply sublist_map_take|].
  etransitivity; [apply sublist_map_filter|].
  apply ids_of_liveItems_sublist. exact Hc.
Qed.

Lemma window_drop (ids : list Z) (start next : nat) :
  (start <= next)%nat -> window ids start next ++ drop next ids = drop start ids.
Proof.
  intros Hle. unfold window.
  replace next with (start + (next - start))%nat at 2 by lia.
  rewrite <- drop_drop. apply take_drop.
Qed.

Lemma fetchPageChain_spec (ids : list Z) (section : Section) :
  forall (fetches : list Upstream) (startIndex : nat),
  Forall consistentUpstream fetches ->
  let r := fetchPageChain fetches ids section startIndex in
  map id (List.concat (map fst r)) `sublist_of` drop startIndex ids /\
  Sorted Nat.le (startIndex :: map snd r).
Proof.
  induction fetches as [|fetch rest IH]; intros startIndex Hc; simpl.
  - split; [apply sublist_nil_l|]. repeat constructor.
  - inversion Hc as [|? ? Hf Hrest]; subst.
    pose proof (fetchFeedPage_spec fetch ids section startIndex) as Hspec.
    pose proof (page_ids_sublist fetch ids section startIndex Hf) as Hpage.
    destruct (fetchFeedPage fetch ids section startIndex) as [items next]. simpl in *.
    destruct Hspec as ((Hle & _ & _) & _).
    destruct (IH next Hrest) as [Hsub Hsorted].
    split.
    + rewrite map_app, <- (window_drop ids startIndex next Hle).
      apply sublist_app; assumption.
    + constructor; [exact Hsorted|]. constructor. exact Hle.
Qed.

(** C1 (amended: pagination over an id list without duplicates). For an id
    list [L] with no duplicate ids, an upstream that answers each id with
    the item of that id, and any chain of [fetchFeedPage] calls each started
    at the cursor returned by the previous one, the ids of the concatenated
    pages form a subsequence of [L] from the first start index on (relative
    order of [L] preserved) and contain no duplicates; the cursors never
    decrease: each returned cursor is at least the start index of its call. *)
Theorem fetchPageChain_order_no_duplicates (ids : list Z) (section : Section)
    (fetches : list Upstream) (startIndex : nat)
    (Hnodup : NoDup ids) (Hconsistent : Forall consistentUpstream fetches) :
  let r := fetchPageChain fetches ids section startIndex in
  map id (List.concat (map fst r)) `sublist_of` drop startIndex ids /\
  NoDup (map id (List.concat (map fst r))) /\
  Sorted Nat.le (startIndex :: map snd r).
Proof.
  destruct (fetchPageChain_spec ids section fetches startIndex Hconsistent) as [Hsub Hsorted].
  split; [exact Hsub|]. split; [|exact Hsorted].
  eapply sublist_NoDup; [|exact Hsub].
  eapply sublist_NoDup; [exact Hnodup|apply sublist_drop].
Qed.

Lemma fetchPageChain_order_no_duplicates_witness :
  NoDup [1; 2; 3] /\ Forall consistentUpstream [storyUpstream; storyUpstream] /\
  (let r := fetchPageChain [storyUpstream; storyUpstream] [1; 2; 3] Top 0 in
   map id (List.concat (map fst r)) `sublist_of` drop 0 [1; 2; 3] /\
   NoDup (map id (List.concat (map fst r))) /\
   Sorted Nat.le (0%nat :: map snd r)).
Proof.
  assert (Hn : NoDup [1; 2; 3]) by (apply (bool_decide_unpack _); vm_compute; reflexivity).
  assert (Hc : Forall consistentUpstream [storyUpstream; storyUpstream]).
  { assert (H : consistentUpstream storyUpstream).
    { intros i it Hf. unfold storyUpstream in Hf. injection Hf as <-. reflexivity. }
    repeat constructor; exact H. }
  split; [exact Hn|]. split; [exact Hc|].
  exact (fetchPageChain_order_no_duplicates [1; 2; 3] Top _ 0%nat Hn Hc).
Defined.

(** C1 counterexample: for the id list [[1; 1]] (a duplicate id), a single
    page already contains the id 1 twice. *)
Lemma fetchPageChain_duplicate_ids :
  map id (List.concat (map fst (fetchPageChain [storyUpstream] [1; 1] Top 0))) = [1; 1] /\
  bool_decide (NoDup (map id (List.concat (map fst (fetchPageChain [storyUpstream] [1; 1] Top 0))))) = false.
Proof. split; vm_compute; reflexivity. Qed.

(** ** Comment-tree builder *)

Lemma geb_false (a b : Z) : (a >=? b) = false -> a < b.
Proof. rewrite Z.geb_leb, Z.leb_gt. tauto. Qed.

Lemma node_all_mkNode (P : Z -> HNCommentNode -> Prop) (d : Z) (it : HNItem)
    (ch : list HNCommentNode) :
  node_all P d (mkNode it ch) <-> P d (mkNode it ch) /\ Forall (node_all P (d + 1)) ch.
Proof.
  simpl. split; intros [HP Hch]; split; try exact HP.
  - clear HP. induction ch as [|c ch IH]; [constructor|].
    destruct Hch as [Hc Hrest]. constructor; [exact Hc|]. apply IH, Hrest.
  - clear HP. induction Hch as [|c ch Hc _ IH]; [exact I|]. split; assumption.
Qed.

Lemma node_height_mkNode (it : HNItem) (ch : list HNCommentNode) :
  node_height (mkNode it ch) = S (forest_height ch).
Proof.
  reflexivity.
Qed.

Lemma forest_height_cons (n : HNCommentNode) (f : list HNCommentNode) :
  forest_height (n :: f) = Nat.max (node_height n) (forest_height f).
Proof. reflexivity. Qed.

Lemma validComments_valid (results : list (option HNItem)) :
  Forall (fun it => isValidComment it = true) (validComments results).
Proof.
  induction results as [|[it|] rest IH]; simpl; [constructor| |exact IH].
  destruct (isValidComment it) eqn:Hv; [constructor|]; assumption.
Qed.

Lemma buildCommentTree_aux_at_limit (fuel : nat) (fetch : Upstream) (ids : list Z) (d : Z) :
  MAX_COMMENT_DEPTH <= d -> buildCommentTree_aux fuel fetch ids d = [].
Proof.
  intros Hd. destruct fuel; simpl; [reflexivity|].
  assert (H : (d >=? MAX_COMMENT_DEPTH) = true) by (apply Z.geb_le; lia).
  rewrite H. reflexivity.
Qed.

(** Every node of the built forest satisfies [P] as soon as [P] holds of any
    node built from a valid comment below the depth limit. *)
Lemma buildCommentTree_aux_all (P : Z -> HNCommentNode -> Prop) :
  (forall fuel fetch it d, isValidComment it = true -> d < MAX_COMMENT_DEPTH ->
     P d (mkNode it (buildCommentTree_aux fuel fetch (kids_or_nil it) (d + 1)))) ->
  forall fuel fetch ids d, forest_all P d (buildCommentTree_aux fuel fetch ids d).
Proof.
  intros HP. induction fuel as [|fuel IH]; intros fetch ids d; simpl; [constructor|].
  destruct (d >=? MAX_COMMENT_DEPTH) eqn:Hd; simpl; [constructor|].
  destruct (Nat.eqb (List.length ids) 0); [constructor|].
  apply geb_false in Hd.
  unfold forest_all. apply Forall_map.
  eapply Forall_impl; [apply validComments_valid|]. intros it Hv.
  apply node_all_mkNode. split.
  - apply HP; [exact Hv|lia].
  - apply IH.
Qed.

Lemma buildCommentTree_aux_height (fuel : nat) :
  forall fetch ids d, (forest_height (buildCommentTree_aux fuel fetch ids d) <= fuel)%nat.
Proof.
  induction fuel as [|fuel IH]; intros fetch ids d; simpl; [lia|].
  destruct ((d >=? MAX_COMMENT_DEPTH) || Nat.eqb (List.length ids) 0); simpl; [lia|].
  induction (validComments (map fetch (take MAX_CHILDREN_PER_LEVEL ids))) as [|it l IHl];
    [simpl; lia|].
  cbn [map]. rewrite forest_height_cons, node_height_mkNode.
  specialize (IH fetch (kids_or_nil it) (d + 1)). lia.
Qed.

(** The source's recursion equation: the fuel never runs out before the
    [depth >= MAX_COMMENT_DEPTH] test of the source fires. *)
Lemma buildCommentTree_eq (fetch : Upstream) (ids : list Z) (depth : Z) :
  buildCommentTree fetch ids depth =
  if (depth >=? MAX_COMMENT_DEPTH) || Nat.eqb (List.length ids) 0 then []
  else map (fun item => mkNode item (buildCommentTree fetch (kids_or_nil item) (depth + 1)))
         (validComments (map fetch (take MAX_CHILDREN_PER_LEVEL ids))).
Proof.
  unfold buildCommentTree.
  destruct (depth >=? MAX_COMMENT_DEPTH) eqn:Hd; simpl.
  - apply Z.geb_le in Hd. apply buildCommentTree_aux_at_limit. exact Hd.
  - apply geb_false in Hd.
    replace (Z.to_nat (MAX_COMMENT_DEPTH - depth))
      with (S (Z.to_nat (MAX_COMMENT_DEPTH - (depth + 1)))) by lia.
    simpl. assert (H : (depth >=? MAX_COMMENT_DEPTH) = false) by (rewrite Z.geb_leb; apply Z.leb_gt; lia).
    rewrite H. reflexivity.
Qed.

(** C2 (bounded recursion depth). Every node of [buildCommentTree ids depth]
    sits at an absolute depth below [MAX_COMMENT_DEPTH] = 5 (the roots at
    [depth], their children at [depth + 1], ...), a node at the last level
    [MAX_COMMENT_DEPTH - 1] has no children, and the forest has at most
    [MAX_COMMENT_DEPTH - depth] levels (5 levels for the call [depth = 0]),
    whatever the upstream thread looks like. *)
Theorem buildCommentTree_bounded_depth (fetch : Upstream) (ids : list Z) (depth : Z) :
  forest_all (fun d n => d < MAX_COMMENT_DEPTH /\
                         (d = MAX_COMMENT_DEPTH - 1 -> node_children n = []))
    depth (buildCommentTree fetch ids depth) /\
  (forest_height (buildCommentTree fetch ids depth) <= Z.to_nat (MAX_COMMENT_DEPTH - depth))%nat.
Proof.
  split.
  - apply buildCommentTree_aux_all. intros fuel fetch' it d _ Hd. split; [exact Hd|].
    intros Heq. simpl. apply buildCommentTree_aux_at_limit. lia.
  - apply buildCommentTree_aux_height.
Qed.

(** C7 (bounded breadth). Ids beyond the first [MAX_CHILDREN_PER_LEVEL] = 10
    have no influence on the tree and raise no error; at every level the
    nodes are the valid comments among the first 10 ids, in the original
    order, each with the subtree built from its own [kids] one level down
    (and nothing at or past the depth limit). *)
Theorem buildCommentTree_bounded_breadth (fetch : Upstream) (ids : list Z) (depth : Z) :
  buildCommentTree fetch ids depth =
    buildCommentTree fetch (take MAX_CHILDREN_PER_LEVEL ids) depth /\
  buildCommentTree fetch ids depth =
    (if depth <? MAX_COMMENT_DEPTH then
       map (fun item => mkNode item (buildCommentTree fetch (kids_or_nil item) (depth + 1)))
         (validComments (map fetch (take MAX_CHILDREN_PER_LEVEL ids)))
     else []).
Proof.
  rewrite !buildCommentTree_eq. rewrite take_take, Nat.min_id.
  destruct (depth >=? MAX_COMMENT_DEPTH) eqn:Hd; simpl.
  - apply Z.geb_le in Hd. assert (H : (depth <? MAX_COMMENT_DEPTH) = false) by (apply Z.ltb_ge; lia).
    rewrite H. split; reflexivity.
  - apply geb_false in Hd. assert (H : (depth <? MAX_COMMENT_DEPTH) = true) by (apply Z.ltb_lt; lia).
    rewrite H.
    destruct ids as [|i ids]; simpl; [split; reflexivity|].
    split; reflexivity.
Qed.

Lemma length_validComments (results : list (option HNItem)) :
  (List.length (validComments results) <= List.length results)%nat.
Proof.
  induction results as [|[it|] rest IH]; simpl; [lia| |lia].
  destruct (isValidComment it); simpl; lia.
Qed.

Lemma length_concat_map_le {A B : Type} (g : A -> list B) (bound : nat) (l : list A) :
  (forall x, (List.length (g x) <= bound)%nat) ->
  (List.length (List.concat (map g l)) <= List.length l * bound)%nat.
Proof.
  intros Hg. induction l as [|x l IH]; simpl; [lia|].
  rewrite length_app. specialize (Hg x). lia.
Qed.

Lemma commentTreeRequests_aux_bound (fuel : nat) :
  forall fetch ids d,
  (List.length (commentTreeRequests_aux fuel fetch ids d) <= reqBound fuel)%nat.
Proof.
  induction fuel as [|fuel IH]; intros fetch ids d; simpl; [lia|].
  destruct ((d >=? MAX_COMMENT_DEPTH) || Nat.eqb (List.length ids) 0); simpl; [lia|].
  rewrite length_app.
  pose proof (length_concat_map_le
    (fun item => commentTreeRequests_aux fuel fetch (kids_or_nil item) (d + 1))
    (reqBound fuel) (validComments (map fetch (take MAX_CHILDREN_PER_LEVEL ids)))
    (fun item => IH fetch (kids_or_nil item) (d + 1))) as Hc.
  pose proof (length_validComments (map fetch (take MAX_CHILDREN_PER_LEVEL ids))) as Hv.
  rewrite length_map, length_take in Hv. rewrite length_take.
  unfold MAX_CHILDREN_PER_LEVEL in *. nia.
Qed.

(** C10 (termination of the tree builder). [buildCommentTree] is a total
    function, for every upstream (cyclic or repeated child ids included),
    every id list and every starting depth, and it satisfies the source's
    recursion: [[]] once [depth >= MAX_COMMENT_DEPTH] or [ids] is empty, else
    one recursive call per surviving comment at [depth + 1]. A build requests
    at most [reqBound (MAX_COMMENT_DEPTH - depth)] ids, which is 111110 for
    the call at depth 0. *)
Theorem buildCommentTree_terminates (fetch : Upstream) (ids : list Z) (depth : Z) :
  buildCommentTree fetch ids depth =
    (if (depth >=? MAX_COMMENT_DEPTH) || Nat.eqb (List.length ids) 0 then []
     else map (fun item => mkNode item (buildCommentTree fetch (kids_or_nil item) (depth + 1)))
            (validComments (map fetch (take MAX_CHILDREN_PER_LEVEL ids)))) /\
  (List.length (commentTreeRequests fetch ids depth)
     <= reqBound (Z.to_nat (MAX_COMMENT_DEPTH - depth)))%nat /\
  reqBound (Z.to_nat (MAX_COMMENT_DEPTH - 0)) = 111110%nat.
Proof.
  split; [apply buildCommentTree_eq|]. split; [apply commentTreeRequests_aux_bound|].
  reflexivity.
Qed.

(** ** Suppression *)

(** C3 (suppression filter). No item whose [dead] or [deleted] flag is true
    is output by [fetchItemsByIds], accepted by [shouldRenderInSection] (for
    any category), put on a page by [fetchFeedPage], or put at any level of
    the forest built by [buildCommentTree]. *)
Theorem suppressed_items_never_output :
  (forall fetch ids maxItems,
     Forall (fun it => truthy (dead it) = false /\ truthy (deleted it) = false)
       (fetchItemsByIds fetch ids maxItems)) /\
  (forall it section,
     truthy (dead it) = true \/ truthy (deleted it) = true ->
     shouldRenderInSection it section = false) /\
  (forall fetch ids section startIndex,
     Forall (fun it => truthy (dead it) = false /\ truthy (deleted it) = false)
       (fst (fetchFeedPage fetch ids section startIndex))) /\
  (forall fetch ids depth,
     forest_all (fun _ n => truthy (dead (node_item n)) = false /\
                            truthy (deleted (node_item n)) = false)
       depth (buildCommentTree fetch ids depth)).
Proof.
  split; [|split; [|split]].
  - intros fetch ids m. rewrite fetchItemsByIds_spec.
    apply Forall_take. eapply Forall_impl; [apply liveItems_not_suppressed|].
    intros it. unfold suppressed. rewrite orb_false_iff. tauto.
  - intros it section [H|H]; unfold shouldRenderInSection; rewrite H;
      [reflexivity|rewrite orb_true_r; reflexivity].
  - intros fetch ids section startIndex.
    pose proof (fetchFeedPage_spec fetch ids section startIndex) as Hspec.
    destruct (fetchFeedPage fetch ids section startIndex) as [items next]. simpl in *.
    destruct Hspec as ((_ & Hpage & _) & _). rewrite Hpage.
    apply Forall_take. eapply Forall_impl; [apply Forall_filter_true|].
    intros it Hq. apply shouldRender_not_suppressed in Hq.
    unfold suppressed in Hq. apply orb_false_iff in Hq. tauto.
  - intros fetch ids depth. apply buildCommentTree_aux_all.
    intros fuel fetch' it d Hv _. simpl. unfold isValidComment in Hv.
    apply andb_true_iff in Hv as [Hv Hdel]. apply andb_true_iff in Hv as [_ Hdead].
    apply negb_true_iff in Hdel, Hdead. tauto.
Qed.

(** ** Timed caches *)

Lemma readTimedCache_entry {K T : Type} `{Countable K}
    (cache : gmap K (TimedValue T)) (key : K) (e : TimedValue T) (ttl now : Z) :
  cache !! key = Some e ->
  readTimedCache cache key ttl now =
    if now - createdAt e <=? ttl then (cache, Some (value e)) else (delete key cache, None).
Proof.
  intros He. unfold readTimedCache. rewrite He.
  destruct (now - createdAt e <=? ttl) eqn:Hle.
  - apply Z.leb_le in Hle. assert (Hg : (now - createdAt e >? ttl) = false) by (rewrite Z.gtb_ltb; apply Z.ltb_ge; lia).
    rewrite Hg. reflexivity.
  - apply Z.leb_gt in Hle. assert (Hg : (now - createdAt e >? ttl) = true) by (rewrite Z.gtb_ltb; apply Z.ltb_lt; lia).
    rewrite Hg. reflexivity.
Qed.

Lemma readTimedCache_after_write {K T : Type} `{Countable K}
    (cache : gmap K (TimedValue T)) (key : K) (v : T) (T0 ttl t : Z) :
  readTimedCache (writeTimedCache cache key v T0) key ttl t =
    if t - T0 <=? ttl then (writeTimedCache cache key v T0, Some v)
    else (delete key (writeTimedCache cache key v T0), None).
Proof.
  rewrite (readTimedCache_entry _ key (mkTimed v T0)); [reflexivity|].
  unfold writeTimedCache. apply lookup_insert_eq.
Qed.

Lemma delete_removes {K T : Type} `{Countable K} (cache : gmap K (TimedValue T)) (key : K) :
  delete key cache !! key = None.
Proof. apply lookup_delete_eq. Qed.

(** C4 (cache TTL read semantics). For the feed cache (keyed by category,
    TTL 60 s), the post cache (keyed by post id, TTL 120 s) and the user
    cache (keyed by the lowercased handle, TTL 300 s), a read at time [t] of
    an entry written at [T0] returns the stored value exactly when
    [t - T0 <= TTL] (leaving the cache as it is), and otherwise removes the
    entry and reports absent. *)
Theorem timed_cache_ttl_reads :
  (forall (c : FeedCache) (section : Section) (snap : FeedSnapshot) (T0 t : Z),
     readTimedCache (writeTimedCache c section snap T0) section FEED_CACHE_TTL_MS t =
       if t - T0 <=? 60000 then (writeTimedCache c section snap T0, Some snap)
       else (delete section (writeTimedCache c section snap T0), None)) /\
  (forall (c : PostCache) (postId : Z) (p : PostSnapshot) (T0 t : Z),
     readTimedCache (writeTimedCache c postId p T0) postId POST_CACHE_TTL_MS t =
       if t - T0 <=? 120000 then (writeTimedCache c postId p T0, Some p)
       else (delete postId (writeTimedCache c postId p T0), None)) /\
  (forall (c : UserCache) (userId : string) (u : HNUser) (T0 t : Z),
     readTimedCache (writeTimedCache c (userCacheKey userId) u T0) (userCacheKey userId)
       USER_CACHE_TTL_MS t =
       if t - T0 <=? 300000 then (writeTimedCache c (userCacheKey userId) u T0, Some u)
       else (delete (userCacheKey userId) (writeTimedCache c (userCacheKey userId) u T0), None)) /\
  (forall {K T : Type} `{Countable K} (c : gmap K (TimedValue T)) (key : K), delete key c !! key = None).
Proof.
  split; [|split; [|split]].
  - intros. apply readTimedCache_after_write.
  - intros. apply readTimedCache_after_write.
  - intros. apply readTimedCache_after_write.
  - intros. apply delete_removes.
Qed.

(** ** Single-id fetch *)

Lemma fetchItemById_status (net : Net) (itemId status : Z) (body : option json) :
  net (ItemEP itemId) = HttpResponse false status body ->
  fetchItemById net itemId = inl (StatusErr status).
Proof. intros Hn. unfold fetchItemById, fetchJson. rewrite Hn. reflexivity. Qed.

(** C5 counterexample: a 404 response to [/item/1.json] makes
    [fetchItemById] throw [Request failed (404)] instead of returning null. *)
Lemma fetchItemById_404_throws :
  fetchItemById (fun _ => HttpResponse false 404 (Some JNull)) 1 = inl (StatusErr 404).
Proof. reflexivity. Qed.

(** C5 (amended: single-id fetch). On a successful response [fetchItemById]
    returns null when the payload is null (or otherwise falsy) or has no
    numeric [id] field, and the payload otherwise; a non-success response is
    thrown as [Request failed (status)], and transport failures (timeout,
    network error, cancellation) and an unparsable body are thrown too. *)
Theorem fetchItemById_results (net : Net) (itemId : Z) :
  (forall status j, net (ItemEP itemId) = HttpResponse true status (Some j) ->
     fetchItemById net itemId =
       inr (if json_truthy j && is_number (json_get j "id") then Some j else None)) /\
  (forall status, net (ItemEP itemId) = HttpResponse true status (Some JNull) ->
     fetchItemById net itemId = inr None) /\
  (forall status body, net (ItemEP itemId) = HttpResponse false status body ->
     fetchItemById net itemId = inl (StatusErr status)) /\
  (forall f, net (ItemEP itemId) = Rejected f ->
     fetchItemById net itemId = inl (TransportErr f)) /\
  (forall status, net (ItemEP itemId) = HttpResponse true status None ->
     fetchItemById net itemId = inl ParseErr).
Proof.
  unfold fetchItemById, fetchJson.
  split; [|split; [|split; [|split]]]; intros *; intros Hn; rewrite Hn; simpl; try reflexivity.
  destruct (json_truthy j), (is_number (json_get j "id")); reflexivity.
Qed.

(** ** Id-list resolver *)

(** C9 (id-list resolver). [submit] requests nothing and returns no ids;
    [comments] requests only [/updates.json] and returns the numeric entries
    of its [items] field; every other category requests its ranked list and
    returns its numeric entries; the result keeps exactly the numeric
    entries, in order, dropping the others without an error. *)
Theorem fetchStoryIds_resolver (net : Net) :
  fetchStoryIds net Submit = ([], inr []) /\
  (forall status fields xs,
     net UpdatesEP = HttpResponse true status (Some (JObj fields)) ->
     json_get (JObj fields) "items" = Some (JArr xs) ->
     fetchStoryIds net Comments = ([UpdatesEP], inr (filterNumbers xs))) /\
  (forall section status xs,
     section <> Submit -> section <> Comments ->
     net (StoriesEP (storiesEndpoint section)) = HttpResponse true status (Some (JArr xs)) ->
     fetchStoryIds net section = ([StoriesEP (storiesEndpoint section)], inr (filterNumbers xs))) /\
  (forall xs, map JNum (filterNumbers xs) = List.filter (fun j => is_number (Some j)) xs).
Proof.
  split; [reflexivity|]. split; [|split].
  - intros status fields xs Hn Hitems. unfold fetchStoryIds, fetchJson. rewrite Hn.
    cbn -[json_get]. rewrite Hitems. reflexivity.
  - intros section status xs Hs Hc Hn.
    destruct section; try congruence; simpl; unfold fetchJson; simpl in Hn; rewrite Hn; reflexivity.
  - intros xs. induction xs as [|[] xs IH]; simpl; try rewrite IH; reflexivity.
Qed.

(** ** Cancellation *)

(** C6 (cancellation safety): a failing run. [PostView] for post 7 fetches
    the post, then is unmounted (its controller aborted) while the comment
    tree is being fetched. The aborted tree fetches are swallowed to null,
    so the cancelled continuation still writes the post with an empty
    comment list into [postCache]; a new [PostView] for the same post,
    mounted a second later, takes its whole state from that entry (it shows
    no comments and never refetches), although the thread has one live reply. *)
Theorem PostView_cancelled_result_written :
  let cacheA := fst (PostView_then threadUpstream true ∅ 7 post7 1000) in
  cacheA !! 7 = Some (mkTimed (mkPostSnapshot post7 []) 1000) /\
  snd (PostView_mount cacheA 7 2000) = mkPostViewState (Some post7) [] Ready /\
  buildCommentTree threadUpstream (kids_or_nil post7) 0 = [mkNode comment8 []].
Proof. vm_compute. split; [reflexivity|split; reflexivity]. Qed.

(** * Further properties of the data layer and the feed view *)

(** ** Routing *)

(** X1. [normalizeSection] maps the name of every section back to that
    section ([top] through its default), and maps [null], [undefined] and
    every other string to [top]. *)
Theorem normalizeSection_names :
  (forall section, normalizeSection (Some (sectionName section)) = section) /\
  normalizeSection None = Top /\
  (forall v, (forall section, v <> sectionName section) -> normalizeSection (Some v) = Top).
Proof.
  split; [intros []; reflexivity|]. split; [reflexivity|].
  intros v Hv. simpl.
  repeat match goal with
  | |- context [String.eqb v ?lit] =>
      let E := fresh "E" in destruct (String.eqb v lit) eqn:E;
      [apply String.eqb_eq in E; subst v;
       exfalso; first [ apply (Hv New); reflexivity | apply (Hv Past); reflexivity
                      | apply (Hv Comments); reflexivity | apply (Hv Ask); reflexivity
                      | apply (Hv Show); reflexivity | apply (Hv Jobs); reflexivity
                      | apply (Hv Submit); reflexivity ]|cbn iota]
  end.
  reflexivity.
Qed.

(** X2. [sectionPath] gives every section its own path. *)
Theorem sectionPath_injective (s1 s2 : Section) :
  sectionPath s1 = sectionPath s2 <-> s1 = s2.
Proof.
  split; [|intros ->; reflexivity].
  destruct s1, s2; simpl; intros H; first [reflexivity | discriminate].
Qed.

(** ** Timed caches *)

(** X3. A cache read touches only the key it reads: a missing key reads
    absent and leaves the cache as it is, and every other key keeps its
    entry, stale or not. *)
Theorem readTimedCache_local {K T : Type} `{Countable K} :
  (forall (cache : gmap K (TimedValue T)) key ttl now,
     cache !! key = None -> readTimedCache cache key ttl now = (cache, None)) /\
  (forall (cache : gmap K (TimedValue T)) key key' ttl now,
     key' <> key -> fst (readTimedCache cache key ttl now) !! key' = cache !! key').
Proof.
  split.
  - intros cache key ttl now Hk. unfold readTimedCache. rewrite Hk. reflexivity.
  - intros cache key key' ttl now Hne. unfold readTimedCache.
    destruct (cache !! key) as [e|]; [|reflexivity].
    destruct (now - createdAt e >? ttl); simpl; [|reflexivity].
    apply lookup_delete_ne. congruence.
Qed.

(** X4. A write overwrites whatever the key held (the last write wins, with
    its own timestamp) and leaves every other key as it was. *)
Theorem writeTimedCache_overwrite {K T : Type} `{Countable K} :
  (forall (cache : gmap K (TimedValue T)) key v1 t1 v2 t2,
     writeTimedCache (writeTimedCache cache key v1 t1) key v2 t2 =
     writeTimedCache cache key v2 t2) /\
  (forall (cache : gmap K (TimedValue T)) key key' v t,
     key' <> key -> writeTimedCache cache key v t !! key' = cache !! key').
Proof.
  split.
  - intros. unfold writeTimedCache. apply insert_insert_eq.
  - intros cache key key' v t Hne. unfold writeTimedCache. apply lookup_insert_ne. congruence.
Qed.

(** ** Batch fetch *)

(** X5. [fetchItemsByIds(ids, signal, maxItems)] returns at most [maxItems]
    items, and stopping early changes nothing else: the result is the first
    [maxItems] items of the full fetch of [ids]. *)
Theorem fetchItemsByIds_early_exit (fetch : Upstream) (ids : list Z) (maxItems : nat) :
  (List.length (fetchItemsByIds fetch ids maxItems) <= maxItems)%nat /\
  fetchItemsByIds fetch ids maxItems =
    take maxItems (fetchItemsByIds fetch ids (List.length ids)).
Proof.
  rewrite !fetchItemsByIds_spec. split; [rewrite length_take; lia|].
  rewrite (take_ge (liveItems (map fetch ids)) (List.length ids)); [reflexivity|].
  pose proof (length_liveItems (map fetch ids)) as Hl. rewrite length_map in Hl. exact Hl.
Qed.

(** ** Feed cursor *)

Lemma fetchFeedPage_loop_step (fetch : Upstream) (ids : list Z) (section : Section) :
  forall fuel cursor page,
  exists k, snd (fetchFeedPage_loop fuel fetch ids section cursor page) = (cursor + PAGE_SIZE * k)%nat.
Proof.
  induction fuel as [|fuel IH]; intros cursor page; simpl; [exists 0%nat; lia|].
  destruct (Nat.ltb cursor (List.length ids) && Nat.ltb (List.length page) PAGE_SIZE);
    [|exists 0%nat; simpl; lia].
  destruct (Nat.eqb (List.length (take PAGE_SIZE (drop cursor ids))) 0); [exists 0%nat; simpl; lia|].
  destruct (IH (cursor + PAGE_SIZE)%nat
              (pushQualifying section
                 (fetchItemsByIds fetch (take PAGE_SIZE (drop cursor ids))
                    (List.length (take PAGE_SIZE (drop cursor ids)))) page)) as [k Hk].
  exists (S k). rewrite Hk. unfold PAGE_SIZE; lia.
Qed.

Lemma fetchFeedPage_loop_end (fetch : Upstream) (ids : list Z) (section : Section) :
  forall fuel cursor page,
  let c := snd (fetchFeedPage_loop fuel fetch ids section cursor page) in
  c = cursor \/ (cursor < c /\ c < List.length ids + PAGE_SIZE)%nat.
Proof.
  induction fuel as [|fuel IH]; intros cursor page; simpl; [left; reflexivity|].
  destruct (Nat.ltb cursor (List.length ids)) eqn:H1; simpl; [|left; reflexivity].
  destruct (Nat.ltb (List.length page) PAGE_SIZE); simpl; [|left; reflexivity].
  destruct (Nat.eqb (List.length (take PAGE_SIZE (drop cursor ids))) 0); [left; reflexivity|].
  apply Nat.ltb_lt in H1. right.
  match goal with |- context [fetchFeedPage_loop fuel fetch ids section ?c ?p] =>
    destruct (IH c p) as [Hc|Hc]; rewrite ?Hc end;
  unfold PAGE_SIZE in *; lia.
Qed.

Lemma fetchFeedPage_cursor_facts (fetch : Upstream) (ids : list Z) (section : Section)
    (startIndex : nat) :
  let '(items, nextFetchIndex) := fetchFeedPage fetch ids section startIndex in
  (exists k, nextFetchIndex = (startIndex + PAGE_SIZE * k)%nat) /\
  ((List.length ids <= startIndex)%nat -> items = [] /\ nextFetchIndex = startIndex) /\
  ((startIndex < List.length ids)%nat ->
     (startIndex < nextFetchIndex /\ nextFetchIndex < List.length ids + PAGE_SIZE)%nat).
Proof.
  pose proof (fetchFeedPage_loop_step fetch ids section (S (List.length ids)) startIndex []) as Hstep.
  unfold fetchFeedPage.
  destruct (fetchFeedPage_loop (S (List.length ids)) fetch ids section startIndex []) as [items next] eqn:E.
  simpl in Hstep. split; [exact Hstep|]. split.
  - intros Hle. simpl in E.
    assert (H : Nat.ltb startIndex (List.length ids) = false) by (apply Nat.ltb_ge; lia).
    rewrite H in E. simpl in E. injection E as <- <-. split; reflexivity.
  - intros Hlt. simpl in E.
    assert (H : Nat.ltb startIndex (List.length ids) = true) by (apply Nat.ltb_lt; lia).
    rewrite H in E. simpl in E.
    assert (Hc : Nat.eqb (List.length (take PAGE_SIZE (drop startIndex ids))) 0 = false).
    { apply Nat.eqb_neq. rewrite length_take, length_drop. unfold PAGE_SIZE. lia. }
    rewrite Hc in E.
    match type of E with fetchFeedPage_loop ?f _ _ _ ?c ?p = _ =>
      pose proof (fetchFeedPage_loop_end fetch ids section f c p) as Hend;
      pose proof (fetchFeedPage_loop_step fetch ids section f c p) as Hk end.
    rewrite E in Hend, Hk. simpl in Hend, Hk. destruct Hk as [k Hk].
    unfold PAGE_SIZE in *. lia.
Qed.

(** X6. The cursor returned by [fetchFeedPage] moves in whole chunks of
    [PAGE_SIZE] = 30 ids from the start index. Started at or past the end of
    the id list, the call returns an empty page and the start index itself;
    started inside the list, the cursor strictly advances and ends less than
    one chunk past the end of the list. *)
Theorem fetchFeedPage_cursor (fetch : Upstream) (ids : list Z) (section : Section)
    (startIndex : nat) :
  let '(items, nextFetchIndex) := fetchFeedPage fetch ids section startIndex in
  (exists k, nextFetchIndex = (startIndex + PAGE_SIZE * k)%nat) /\
  ((List.length ids <= startIndex)%nat -> items = [] /\ nextFetchIndex = startIndex) /\
  ((startIndex < List.length ids)%nat ->
     (startIndex < nextFetchIndex /\ nextFetchIndex < List.length ids + PAGE_SIZE)%nat).
Proof. exact (fetchFeedPage_cursor_facts fetch ids section startIndex). Qed.


(** ** Load more: the merge of a new page *)

Lemma mergeLoop_inv (pageItems : list HNItem) :
  forall seen mergedItems firstNewItemId,
  (forall x, x ∈ seen <-> In x (map id mergedItems)) ->
  let '(merged, first) := mergeLoop seen mergedItems firstNewItemId pageItems in
  exists added,
    merged = mergedItems ++ added /\
    (NoDup (map id mergedItems) -> NoDup (map id merged)) /\
    (forall item, In item pageItems -> In (id item) (map id merged)) /\
    first = match firstNewItemId with
            | Some f => Some f
            | None => head (map id added)
            end.
Proof.
  induction pageItems as [|item rest IH]; intros seen mergedItems first Hinv; simpl.
  - exists []. rewrite app_nil_r. split; [reflexivity|]. split; [tauto|].
    split; [intros _ []|]. destruct first; reflexivity.
  - case_bool_decide as Hin.
    + specialize (IH seen mergedItems first Hinv).
      destruct (mergeLoop seen mergedItems first rest) as [merged f] eqn:E.
      destruct IH as (added & -> & Hnd & Hall & Hf).
      exists added. split; [reflexivity|]. split; [exact Hnd|]. split; [|exact Hf].
      intros it [<-|Hit]; [|exact (Hall it Hit)].
      rewrite map_app. apply in_or_app. left. apply Hinv. exact Hin.
    + set (first' := match first with None => Some (id item) | Some f => Some f end).
      assert (Hinv' : forall x, x ∈ {[id item]} ∪ seen <-> In x (map id (mergedItems ++ [item]))).
      { intros x. rewrite map_app, in_app_iff, <- Hinv. simpl.
        split; [intros [Hx|Hx]%elem_of_union; [apply elem_of_singleton in Hx; right; left; congruence|left; exact Hx]|].
        intros [Hx|[Hx|[]]]; apply elem_of_union; [right; exact Hx|left; apply elem_of_singleton; congruence]. }
      specialize (IH ({[id item]} ∪ seen) (mergedItems ++ [item]) first' Hinv').
      destruct (mergeLoop ({[id item]} ∪ seen) (mergedItems ++ [item]) first' rest)
        as [merged f] eqn:E.
      destruct IH as (added & -> & Hnd & Hall & Hf).
      exists (item :: added). split; [rewrite <- app_assoc; reflexivity|]. split; [|split].
      * intros Hnd0. apply Hnd. rewrite map_app. simpl.
        apply NoDup_app. split; [exact Hnd0|]. split; [|apply NoDup_singleton].
        intros x Hx Hx2. apply list_elem_of_singleton in Hx2. subst x.
        apply Hin, Hinv, list_elem_of_In, Hx.
      * intros it [<-|Hit]; [|exact (Hall it Hit)].
        rewrite !map_app. simpl. apply in_or_app. left. apply in_or_app. right. left. reflexivity.
      * rewrite Hf. unfold first'. destruct first; reflexivity.
Qed.

Lemma mergePage_facts (items pageItems : list HNItem) :
  let '(mergedItems, firstNewItemId) := mergePage items pageItems in
  exists added,
    mergedItems = items ++ added /\
    (NoDup (map id items) -> NoDup (map id mergedItems)) /\
    (forall item, In item pageItems -> In (id item) (map id mergedItems)) /\
    firstNewItemId = head (map id added).
Proof.
  unfold mergePage.
  pose proof (mergeLoop_inv pageItems (list_to_set (map id items)) items None) as H.
  destruct (mergeLoop (list_to_set (map id items)) items None pageItems) as [m f].
  apply H. intros x. rewrite elem_of_list_to_set. apply list_elem_of_In.
Qed.

(** X7. Merging a loaded page into the displayed items keeps the displayed
    items as a prefix and only appends; it adds no duplicate id to a list
    that has none; every item of the page ends up in the list (by id); and
    the item to scroll to is the first appended one, or none when nothing
    was appended. *)
Theorem mergePage_appends (items pageItems : list HNItem) :
  let '(mergedItems, firstNewItemId) := mergePage items pageItems in
  exists added,
    mergedItems = items ++ added /\
    (NoDup (map id items) -> NoDup (map id mergedItems)) /\
    (forall item, In item pageItems -> In (id item) (map id mergedItems)) /\
    firstNewItemId = head (map id added).
Proof. exact (mergePage_facts items pageItems). Qed.

(** ** Load more: the handler *)



(** X9. A load-more that runs to completion (no load already running, the
    cursor inside the ids, the controller not aborted) fetches a page,
    advances the cursor by whole chunks to less than one chunk past the end
    of the ids, only appends to the displayed items (no duplicate id added),
    scrolls to the first appended item, clears the loading flag, and leaves
    in the cache under its section exactly the ids, items and cursor now
    displayed, touching no other section's entry. *)
Theorem handleLoadMore_completes (fetch : Upstream) (section : Section)
    (cache : FeedCache) (st : FeedViewState) (now : Z)
    (Hidle : fv_loadingMore st = false)
    (Hcursor : (fv_nextFetchIndex st < List.length (fv_ids st))%nat) :
  let '(cache', st', called) := handleLoadMore fetch section false cache st now in
  called = true /\ fv_ids st' = fv_ids st /\ fv_loadingMore st' = false /\
  (fv_nextFetchIndex st < fv_nextFetchIndex st' /\
   fv_nextFetchIndex st' < List.length (fv_ids st) + PAGE_SIZE)%nat /\
  (exists added, fv_items st' = fv_items st ++ added /\
                 fv_pendingScroll st' = head (map id added)) /\
  (NoDup (map id (fv_items st)) -> NoDup (map id (fv_items st'))) /\
  cache' !! section =
    Some (mkTimed (mkFeedSnapshot (fv_ids st') (fv_items st') (fv_nextFetchIndex st')) now) /\
  (forall other, other <> section -> cache' !! other = cache !! other).
Proof.
  unfold handleLoadMore. rewrite Hidle.
  assert (Hn0 : Nat.eqb (List.length (fv_ids st)) 0 = false) by (apply Nat.eqb_neq; lia).
  assert (Hle : Nat.leb (List.length (fv_ids st)) (fv_nextFetchIndex st) = false)
    by (apply Nat.leb_gt; lia).
  rewrite Hn0, Hle. simpl.
  pose proof (fetchFeedPage_cursor_facts fetch (fv_ids st) section (fv_nextFetchIndex st)) as Hc.
  destruct (fetchFeedPage fetch (fv_ids st) section (fv_nextFetchIndex st)) as [page next].
  destruct Hc as (_ & _ & Hc). specialize (Hc Hcursor). simpl.
  pose proof (mergePage_facts (fv_items st) page) as Hm.
  destruct (mergePage (fv_items st) page) as [merged first].
  destruct Hm as (added & Hmerged & Hnd & _ & Hfirst). simpl.
  split; [reflexivity|]. split; [reflexivity|]. split; [reflexivity|].
  split; [exact Hc|]. split; [exists added; split; assumption|]. split; [exact Hnd|].
  split.
  - unfold writeTimedCache. apply lookup_insert_eq.
  - intros other Hne. unfold writeTimedCache. apply lookup_insert_ne. congruence.
Qed.

Lemma handleLoadMore_completes_witness :
  fv_loadingMore feedView_example = false /\
  (fv_nextFetchIndex feedView_example < List.length (fv_ids feedView_example))%nat /\
  (let '(cache', st', called) := handleLoadMore (fun _ => None) Top false ∅ feedView_example 0 in
   called = true /\ fv_ids st' = fv_ids feedView_example /\ fv_loadingMore st' = false /\
   (fv_nextFetchIndex feedView_example < fv_nextFetchIndex st' /\
    fv_nextFetchIndex st' < List.length (fv_ids feedView_example) + PAGE_SIZE)%nat /\
   (exists added, fv_items st' = fv_items feedView_example ++ added /\
                  fv_pendingScroll st' = head (map id added)) /\
   (NoDup (map id (fv_items feedView_example)) -> NoDup (map id (fv_items st'))) /\
   cache' !! Top =
     Some (mkTimed (mkFeedSnapshot (fv_ids st') (fv_items st') (fv_nextFetchIndex st')) 0) /\
   (forall other, other <> Top -> cache' !! other = (∅ : FeedCache) !! other)).
Proof.
  split; [reflexivity|]. split; [simpl; lia|].
  apply (handleLoadMore_completes (fun _ => None) Top ∅ feedView_example 0);
    [reflexivity | simpl; lia].
Defined.



(** ** Feed loading *)

Lemma readTimedCache_shrinks {K T : Type} `{Countable K}
    (cache : gmap K (TimedValue T)) (key : K) (maxAgeMs now : Z) (k : K) :
  fst (readTimedCache cache key maxAgeMs now) !! k = cache !! k \/
  fst (readTimedCache cache key maxAgeMs now) !! k = None.
Proof.
  unfold readTimedCache. destruct (cache !! key) as [e|]; [|left; reflexivity].
  destruct (now - createdAt e >? maxAgeMs); simpl; [|left; reflexivity].
  destruct (decide (k = key)) as [->|Hne].
  - right. apply lookup_delete_eq.
  - left. apply lookup_delete_ne. congruence.
Qed.

(** X11. A feed load whose controller is aborted before it completes
    stores nothing in the feed cache: every entry is kept, except that the
    stale entry of the section may have been dropped by the read. A forced
    load (refresh) that is aborted leaves the cache exactly as it was and
    ends with no ids and no items displayed, not in the ready state. *)
Theorem loadFeed_aborted_no_write (net : Net) (fetch : Upstream) (section : Section)
    (forceFresh : bool) (abortPoint : AbortPoint) (cache : FeedCache)
    (st : FeedViewState) (now : Z)
    (Habort : abortPoint <> NotAborted) :
  let '(cache', st', _) := loadFeed net fetch section forceFresh abortPoint cache st now in
  (forall k, cache' !! k = cache !! k \/ cache' !! k = None) /\
  (forceFresh = true -> section <> Submit ->
     cache' = cache /\ fv_ids st' = [] /\ fv_items st' = [] /\ fv_loadState st' <> Ready).
Proof.
  unfold loadFeed.
  destruct section;
    [ .. | split; [intros k; left; reflexivity | intros _ Hs; congruence] ];
    destruct forceFresh;
    cbn -[readTimedCache fetchStoryIds fetchFeedPage writeTimedCache];
    try (match goal with |- context [readTimedCache ?c ?s ?t ?n] =>
           pose proof (readTimedCache_shrinks c s t n) as Hr;
           destruct (readTimedCache c s t n) as [c1 [snap|]]; simpl in Hr
         end);
    try (match goal with |- context [fetchStoryIds ?n ?s] =>
           destruct (fetchStoryIds n s) as [reqs [e|allIds]] end;
         destruct abortPoint; try congruence);
    cbn -[readTimedCache fetchStoryIds fetchFeedPage writeTimedCache];
    (split; [intros k; first [left; reflexivity | exact (Hr k)]
            | intros Hf Hs; first [discriminate | repeat split; discriminate]]).
Qed.

Lemma loadFeed_forced_success (net : Net) (fetch : Upstream) (section : Section)
    (cache : FeedCache) (st : FeedViewState) (now : Z) (reqs : list Endpoint) (allIds : list Z) :
  section <> Submit ->
  fetchStoryIds net section = (reqs, inr allIds) ->
  let firstPage := fetchFeedPage fetch allIds section (loadFeed_startIndex section) in
  loadFeed net fetch section true NotAborted cache st now =
    (writeTimedCache cache section (mkFeedSnapshot allIds (fst firstPage) (snd firstPage)) now,
     mkFeedViewState allIds (fst firstPage) Ready None (snd firstPage)
       (fv_loadingMore st) (fv_pendingScroll st), reqs).
Proof.
  intros Hs Hids. unfold loadFeed.
  destruct section; try congruence;
    cbn -[fetchStoryIds fetchFeedPage writeTimedCache loadFeed_startIndex];
    rewrite Hids; reflexivity.
Qed.

Lemma loadFeed_cache_hit (net : Net) (fetch : Upstream) (section : Section)
    (abortPoint : AbortPoint) (cache cache1 : FeedCache) (st : FeedViewState) (now : Z)
    (snap : FeedSnapshot) :
  section <> Submit ->
  readTimedCache cache section FEED_CACHE_TTL_MS now = (cache1, Some snap) ->
  loadFeed net fetch section false abortPoint cache st now =
    (cache1, mkFeedViewState (snap_ids snap) (snap_items snap) Ready None
               (snap_nextFetchIndex snap) (fv_loadingMore st) (fv_pendingScroll st), []).
Proof.
  intros Hs Hr. unfold loadFeed.
  destruct section; try congruence;
    cbn -[readTimedCache fetchStoryIds fetchFeedPage writeTimedCache];
    rewrite Hr; reflexivity.
Qed.

Lemma loadFeed_cache_miss (net : Net) (fetch : Upstream) (section : Section)
    (forceFresh : bool) (abortPoint : AbortPoint) (cache cache1 : FeedCache)
    (st : FeedViewState) (now : Z) :
  section <> Submit ->
  (if forceFresh then (cache, None) else readTimedCache cache section FEED_CACHE_TTL_MS now)
    = (cache1, None) ->
  snd (loadFeed net fetch section forceFresh abortPoint cache st now) =
    fst (fetchStoryIds net section).
Proof.
  intros Hs Hr. unfold loadFeed.
  destruct section; try congruence;
    cbn -[readTimedCache fetchStoryIds fetchFeedPage writeTimedCache];
    rewrite Hr;
    destruct (fetchStoryIds net _) as [reqs [e|allIds]], abortPoint; reflexivity.
Qed.

(** X12. The feed cache round trip: after a refresh of a section (other
    than [submit]) whose id list loads, a normal load of that section at
    most 60 s later, whatever the network and the item fetcher then do and
    whether or not it is aborted, requests nothing and shows the ids, the
    first page and the cursor of the refresh, ready; more than 60 s later
    the entry is stale and the load requests the id list again. *)
Theorem loadFeed_cache_roundtrip (net net' : Net) (fetch fetch' : Upstream)
    (section : Section) (abortPoint : AbortPoint) (cache : FeedCache)
    (st st2 : FeedViewState) (t0 t1 : Z) (reqs : list Endpoint) (allIds : list Z)
    (Hsection : section <> Submit)
    (Hids : fetchStoryIds net section = (reqs, inr allIds)) :
  let firstPage := fetchFeedPage fetch allIds section (loadFeed_startIndex section) in
  let cache1 := fst (fst (loadFeed net fetch section true NotAborted cache st t0)) in
  (t1 - t0 <= FEED_CACHE_TTL_MS ->
     loadFeed net' fetch' section false abortPoint cache1 st2 t1 =
       (cache1, mkFeedViewState allIds (fst firstPage) Ready None (snd firstPage)
                  (fv_loadingMore st2) (fv_pendingScroll st2), [])) /\
  (FEED_CACHE_TTL_MS < t1 - t0 ->
     snd (loadFeed net' fetch' section false abortPoint cache1 st2 t1) =
       fst (fetchStoryIds net' section)).
Proof.
  simpl. rewrite (loadFeed_forced_success net fetch section cache st t0 reqs allIds Hsection Hids).
  simpl. split.
  - intros Hfresh.
    set (firstPage := fetchFeedPage fetch allIds section (loadFeed_startIndex section)).
    apply (loadFeed_cache_hit net' fetch' section abortPoint _ _ st2 t1
             (mkFeedSnapshot allIds (fst firstPage) (snd firstPage))); [exact Hsection|].
    rewrite readTimedCache_after_write.
    assert (Hle : (t1 - t0 <=? FEED_CACHE_TTL_MS) = true) by (apply Z.leb_le; lia).
    rewrite Hle. reflexivity.
  - intros Hstale. eapply loadFeed_cache_miss; [exact Hsection|].
    rewrite readTimedCache_after_write.
    assert (Hle : (t1 - t0 <=? FEED_CACHE_TTL_MS) = false) by (apply Z.leb_gt; lia).
    rewrite Hle. reflexivity.
Qed.

Lemma loadFeed_cache_roundtrip_witness :
  Top <> Submit /\
  fetchStoryIds netStories Top = ([StoriesEP "topstories"], inr [5]) /\
  (let firstPage := fetchFeedPage (fun _ => None) [5] Top (loadFeed_startIndex Top) in
   let cache1 := fst (fst (loadFeed netStories (fun _ => None) Top true NotAborted ∅
                             feedView_example 0)) in
   (30000 - 0 <= FEED_CACHE_TTL_MS ->
      loadFeed netStories (fun _ => None) Top false NotAborted cache1 feedView_example 30000 =
        (cache1, mkFeedViewState [5] (fst firstPage) Ready None (snd firstPage)
                   (fv_loadingMore feedView_example) (fv_pendingScroll feedView_example), [])) /\
   (FEED_CACHE_TTL_MS < 30000 - 0 ->
      snd (loadFeed netStories (fun _ => None) Top false NotAborted cache1 feedView_example 30000) =
        fst (fetchStoryIds netStories Top))).
Proof.
  split; [discriminate|]. split; [reflexivity|].
  apply (loadFeed_cache_roundtrip netStories netStories (fun _ => None) (fun _ => None) Top
           NotAborted ∅ feedView_example feedView_example 0 30000 [StoriesEP "topstories"] [5]);
    [discriminate | reflexivity].
Defined.

(** X13. A refresh ([forceFresh]) of any section other than [submit]
    ignores the cache and always requests the section's id list: the
    [updates] list for [comments], the section's ranked list otherwise;
    loading [submit] requests nothing. *)
Theorem loadFeed_refresh_requests (net : Net) (fetch : Upstream) (section : Section)
    (abortPoint : AbortPoint) (cache : FeedCache) (st : FeedViewState) (now : Z) :
  snd (loadFeed net fetch section true abortPoint cache st now) =
    match section with
    | Submit => []
    | Comments => [UpdatesEP]
    | _ => [StoriesEP (storiesEndpoint section)]
    end.
Proof.
  destruct section eqn:Es; [ .. | reflexivity];
    (erewrite loadFeed_cache_miss; [reflexivity | discriminate | reflexivity]).
Qed.

Lemma loadFeed_aborted_no_write_witness :
  AbortedDuringIds <> NotAborted /\
  (let '(cache', st', _) :=
     loadFeed (fun _ => Rejected AbortError) (fun _ => None) Top true AbortedDuringIds ∅
       feedView_example 0 in
   (forall k, cache' !! k = (∅ : FeedCache) !! k \/ cache' !! k = None) /\
   (true = true -> Top <> Submit ->
      cache' = ∅ /\ fv_ids st' = [] /\ fv_items st' = [] /\ fv_loadState st' <> Ready)).
Proof.
  split; [discriminate|].
  apply (loadFeed_aborted_no_write (fun _ => Rejected AbortError) (fun _ => None) Top true
           AbortedDuringIds ∅ feedView_example 0).
  discriminate.
Defined.

(** ** Post cache round trip *)

(** X14. The post cache round trip: once the post-detail effect of
    [PostView] has completed for a post (not cancelled), a [PostView] for the
    same post mounted at most 120 s later starts ready with that post and
    the comment tree built for it; mounted more than 120 s later it finds
    the entry stale, drops it and starts loading with nothing shown. *)
Theorem PostView_cache_roundtrip (upstream : Upstream) (postCache : PostCache)
    (postId : Z) (nextItem : HNItem) (t0 t1 : Z) :
  let cache1 := fst (PostView_then upstream false postCache postId nextItem t0) in
  (t1 - t0 <= POST_CACHE_TTL_MS ->
     PostView_mount cache1 postId t1 =
       (cache1, mkPostViewState (Some nextItem)
                  (buildCommentTree upstream (kids_or_nil nextItem) 0) Ready)) /\
  (POST_CACHE_TTL_MS < t1 - t0 ->
     fst (PostView_mount cache1 postId t1) !! postId = None /\
     snd (PostView_mount cache1 postId t1) = mkPostViewState None [] Loading).
Proof.
  simpl. unfold PostView_mount. rewrite readTimedCache_after_write. split.
  - intros Hfresh.
    assert (Hle : (t1 - t0 <=? POST_CACHE_TTL_MS) = true) by (apply Z.leb_le; lia).
    rewrite Hle. reflexivity.
  - intros Hstale.
    assert (Hle : (t1 - t0 <=? POST_CACHE_TTL_MS) = false) by (apply Z.leb_gt; lia).
    rewrite Hle. simpl. split; [apply delete_removes | reflexivity].
Qed.

(** ** User profiles *)

(** X15. [fetchUserById] returns the payload only when it is truthy and
    its [id] field is a string, and null for any other payload ([null]
    included); a non-success response is thrown as [Request failed (status)],
    and a transport failure or an unparsable body is thrown too. *)
Theorem fetchUserById_results (net : Net) (userId : string) :
  (forall status j, net (UserEP userId) = HttpResponse true status (Some j) ->
     fetchUserById net userId =
       inr (if json_truthy j && is_string (json_get j "id") then Some j else None)) /\
  (forall status, net (UserEP userId) = HttpResponse true status (Some JNull) ->
     fetchUserById net userId = inr None) /\
  (forall status body, net (UserEP userId) = HttpResponse false status body ->
     fetchUserById net userId = inl (StatusErr status)) /\
  (forall f, net (UserEP userId) = Rejected f ->
     fetchUserById net userId = inl (TransportErr f)) /\
  (forall status, net (UserEP userId) = HttpResponse true status None ->
     fetchUserById net userId = inl ParseErr).
Proof.
  unfold fetchUserById, fetchJson.
  split; [|split; [|split; [|split]]]; intros *; intros Hn; rewrite Hn; simpl; try reflexivity.
  destruct (json_truthy j), (is_string (json_get j "id")); reflexivity.
Qed.





(** ** Relative ages *)

(** X17. [formatRelativeAge] shows "unknown" for a missing or zero time;
    otherwise, with [diff] the whole seconds elapsed (zero for a time in
    the future), it shows whole seconds below one minute, whole minutes
    below one hour, whole hours below one day and whole days from one day
    on, each rounded down. *)
Theorem formatRelativeAge_units (nowMs t : Z) :
  formatRelativeAge nowMs None = "unknown" /\
  formatRelativeAge nowMs (Some 0) = "unknown" /\
  (t <> 0 ->
   let diff := Z.max 0 (nowMs / 1000 - t) in
   formatRelativeAge nowMs (Some t) =
     if diff <? 60 then String.append (pretty diff) "s ago"
     else if diff <? 3600 then String.append (pretty (diff / 60)) "m ago"
     else if diff <? 86400 then String.append (pretty (diff / 3600)) "h ago"
     else String.append (pretty (diff / 86400)) "d ago") /\
  (t <> 0 -> nowMs / 1000 <= t -> formatRelativeAge nowMs (Some t) = "0s ago").
Proof.
  assert (Hunits : t <> 0 ->
   let diff := Z.max 0 (nowMs / 1000 - t) in
   formatRelativeAge nowMs (Some t) =
     if diff <? 60 then String.append (pretty diff) "s ago"
     else if diff <? 3600 then String.append (pretty (diff / 60)) "m ago"
     else if diff <? 86400 then String.append (pretty (diff / 3600)) "h ago"
     else String.append (pretty (diff / 86400)) "d ago").
  { intros Ht diff. unfold formatRelativeAge.
    assert (Ht' : (t =? 0) = false) by (apply Z.eqb_neq; exact Ht).
    rewrite Ht'. fold diff.
    assert (Hd : 0 <= diff) by apply Z.le_max_l.
    assert (Hm : (diff / 60 <? 60) = (diff <? 3600)).
    { pose proof (Z.div_mod diff 60 ltac:(lia)). pose proof (Z.mod_pos_bound diff 60 ltac:(lia)).
      destruct (Z.ltb_spec (diff / 60) 60), (Z.ltb_spec diff 3600); lia. }
    assert (Hh : diff / 60 / 60 = diff / 3600) by (rewrite Z.div_div by lia; reflexivity).
    assert (Hdd : diff / 60 / 60 / 24 = diff / 86400) by (rewrite !Z.div_div by lia; reflexivity).
    assert (Hhb : (diff / 3600 <? 24) = (diff <? 86400)).
    { pose proof (Z.div_mod diff 3600 ltac:(lia)). pose proof (Z.mod_pos_bound diff 3600 ltac:(lia)).
      destruct (Z.ltb_spec (diff / 3600) 24), (Z.ltb_spec diff 86400); lia. }
    rewrite Hm, Hdd, Hh, Hhb. reflexivity. }
  split; [reflexivity|]. split; [reflexivity|]. split; [exact Hunits|].
  intros Ht Hfuture. rewrite (Hunits Ht).
  assert (H0 : Z.max 0 (nowMs / 1000 - t) = 0) by lia.
  rewrite H0. reflexivity.
Qed.

(** ** Id lists: edge cases *)

(** X18. The edge cases of [fetchStoryIds]: [past] reads the same list as
    [top] ([loadFeed] then starts its first page further down); for
    [comments], an [updates] payload of [null] throws a [TypeError], a
    payload whose [items] is missing or [null] gives no ids, and an [items]
    value that is neither [null] nor an array throws a [TypeError]; for every
    section but [submit], a non-success response to the one request made is
    thrown as [Request failed (status)]. *)
Theorem fetchStoryIds_edges (net : Net) :
  fetchStoryIds net Past = fetchStoryIds net Top /\
  (forall status, net UpdatesEP = HttpResponse true status (Some JNull) ->
     snd (fetchStoryIds net Comments) = inl TypeErr) /\
  (forall status j, net UpdatesEP = HttpResponse true status (Some j) -> j <> JNull ->
     (json_get j "items" = None \/ json_get j "items" = Some JNull) ->
     snd (fetchStoryIds net Comments) = inr []) /\
  (forall status j items, net UpdatesEP = HttpResponse true status (Some j) -> j <> JNull ->
     json_get j "items" = Some items -> items <> JNull -> (forall xs, items <> JArr xs) ->
     snd (fetchStoryIds net Comments) = inl TypeErr) /\
  (forall section ep status body, section <> Submit ->
     fst (fetchStoryIds net section) = [ep] ->
     net ep = HttpResponse false status body ->
     snd (fetchStoryIds net section) = inl (StatusErr status)).
Proof.
  split; [reflexivity|]. split; [|split; [|split]].
  - intros status Hn. unfold fetchStoryIds, fetchJson. rewrite Hn. reflexivity.
  - intros status j Hn Hj Hitems. unfold fetchStoryIds, fetchJson. rewrite Hn.
    cbn -[json_get]. destruct j; try congruence;
      destruct Hitems as [Hi|Hi]; rewrite Hi; reflexivity.
  - intros status j items Hn Hj Hitems Hnull Harr. unfold fetchStoryIds, fetchJson. rewrite Hn.
    cbn -[json_get]. destruct j; try congruence; rewrite Hitems;
      destruct items; try congruence; try reflexivity; exfalso; eapply Harr; reflexivity.
  - intros section ep status body Hs Hep Hn.
    destruct section; try congruence; simpl in Hep; injection Hep as <-;
      unfold fetchStoryIds, fetchJson; simpl; rewrite Hn; reflexivity.
Qed.

(** ** Feed loading: a failed id list *)

(** X19. When the id-list request of a feed load throws (and the load is
    not cancelled meanwhile), nothing is stored in the feed cache (at most
    the stale entry of the section was dropped by the read); a refresh then
    ends in the error state with that error, after the same requests, with
    no ids and no items displayed. *)
Theorem loadFeed_ids_error (net : Net) (fetch : Upstream) (section : Section)
    (forceFresh : bool) (abortPoint : AbortPoint) (cache : FeedCache)
    (st : FeedViewState) (now : Z) (reqs : list Endpoint) (e : FetchError)
    (Hids : fetchStoryIds net section = (reqs, inl e))
    (Habort : abortPoint <> AbortedDuringIds) :
  let '(cache', st', reqs') := loadFeed net fetch section forceFresh abortPoint cache st now in
  (forall k, cache' !! k = cache !! k \/ cache' !! k = None) /\
  (forceFresh = true ->
     reqs' = reqs /\ fv_loadState st' = Error /\ fv_error st' = Some e /\
     fv_ids st' = [] /\ fv_items st' = []).
Proof.
  unfold loadFeed.
  destruct section; [ .. | simpl in Hids; discriminate ];
    destruct forceFresh;
    cbn -[readTimedCache fetchStoryIds fetchFeedPage writeTimedCache];
    try (match goal with |- context [readTimedCache ?c ?s ?t ?n] =>
           pose proof (readTimedCache_shrinks c s t n) as Hr;
           destruct (readTimedCache c s t n) as [c1 [snap|]]; simpl in Hr
         end);
    try (rewrite Hids; destruct abortPoint; try congruence);
    cbn -[readTimedCache fetchStoryIds fetchFeedPage writeTimedCache];
    (split; [intros k; first [left; reflexivity | exact (Hr k)]
            | intros Hf; first [discriminate | repeat split]]).
Qed.

Lemma loadFeed_ids_error_witness :
  fetchStoryIds (fun _ => Rejected NetworkError) Top =
    ([StoriesEP "topstories"], inl (TransportErr NetworkError)) /\
  NotAborted <> AbortedDuringIds /\
  (let '(cache', st', reqs') :=
     loadFeed (fun _ => Rejected NetworkError) (fun _ => None) Top true NotAborted ∅
       feedView_example 0 in
   (forall k, cache' !! k = (∅ : FeedCache) !! k \/ cache' !! k = None) /\
   (true = true ->
      reqs' = [StoriesEP "topstories"] /\ fv_loadState st' = Error /\
      fv_error st' = Some (TransportErr NetworkError) /\ fv_ids st' = [] /\ fv_items st' = [])).
Proof.
  split; [reflexivity|]. split; [discriminate|].
  apply (loadFeed_ids_error (fun _ => Rejected NetworkError) (fun _ => None) Top true NotAborted
           ∅ feedView_example 0 [StoriesEP "topstories"] (TransportErr NetworkError));
    [reflexivity | discriminate].
Defined.
